(** * BAlertX24_Interface: the B-Alert X24 streaming adapter

    A shallow embedding of
    [physiolabxr/interfaces/DeviceInterface/BAlertX24/BAlertX24_Interface.py]:
    the constructor, [start_stream], [stop_stream] and [process_frames],
    over an explicit program state that holds the instance dictionary of
    [self] and the host resources the methods touch (ZMQ sockets and their
    pending messages, [multiprocessing.Event] flags, child processes).

    Conventions.
    - A method is a function from the state to an outcome and a state; an
      exception keeps the changes made before it was raised.
    - Numbers carried by frames and timestamps are integers. A frame value
      becomes the integer its float64 holds ([astype(np.float64)] rounds
      above 2^53 and fails beyond the float64 range); timestamps stay as
      they are, within int64. JSON numbers with a fraction are not
      modelled.
    - [DeviceInterface], the base class, is defined elsewhere; its
      constructor is a parameter of the constructor modelled here. *)

From Stdlib Require Import Ascii String.
From stdpp Require Import base option list strings gmap pretty.

Set Default Proof Using "Type".
Set Warnings "-register-all".

(** ** Python values, exceptions, outcomes *)

(** Decoded JSON, as [json.loads] hands it to the code. An object is the
    key/value list of the decoded [dict]; [JNum] is an integer-valued
    number. *)
Inductive json : Type :=
| JNull
| JBool (b : bool)
| JNum (n : Z)
| JStr (s : string)
| JArr (items : list json)
| JObj (fields : list (string * json)).

(** What a ZMQ frame on the socket holds: text that [json.loads] decodes to
    a value, or text it rejects. *)
Inductive payload : Type :=
| Wire (j : json)
| Malformed (raw : string).

(** Values stored in instance attributes and module globals. Host objects
    are handles into the stores of [state]. *)
Inductive value : Type :=
| VNone
| VBool (b : bool)
| VInt (n : Z)
| VStr (s : string)
| VList (items : list value)
| VEvent (h : nat)
| VContext (h : nat)
| VSocket (h : nat)
| VOpaque (name : string).

(** The exceptions the modelled code can raise. [zmq.Again] is not listed:
    every receive in the file catches it on the spot. [Unmodelled] marks an
    input on which this development does not determine what the libraries
    do (numpy on non-numeric leaves, [str] of a host object); [OutOfFuel]
    is the round bound of a receive loop being hit, which
    [process_frames_fuel] and [stop_stream_fuel] show never happens. *)
Inductive exn : Type :=
| EnvironmentError (msg : string)
| NameError (name : string)
| AttributeError (attr : string)
| KeyError (key : string)
| TypeError
| ValueError
| IndexError
| OverflowError
| JSONDecodeError
| ZMQError
| Unmodelled (what : string)
| OutOfFuel.

Inductive result (A : Type) : Type :=
| Ok (a : A)
| Raise (e : exn).
Arguments Ok {A} a.
Arguments Raise {A} e.

#[global] Instance result_ret : MRet result := λ A a, Ok a.
#[global] Instance result_bind : MBind result := λ A B f r,
  match r with
  | Ok a => f a
  | Raise e => Raise e
  end.

(** Truth value of a Python object in an [if]. *)
Definition truthy (v : value) : bool :=
  match v with
  | VNone => false
  | VBool b => b
  | VInt n => negb (n =? 0)%Z
  | VStr s => negb (String.eqb s "")
  | VList l => negb (Nat.eqb (length l) 0)
  | VEvent _ | VContext _ | VSocket _ | VOpaque _ => true
  end.

(** ** numpy arrays

    An array is its shape together with its nested contents. The shape is
    kept apart because nesting alone cannot tell a [(0, 3)] array from a
    [(0,)] one. *)
Inductive nest : Type :=
| Leaf (x : Z)
| Node (rows : list nest).

Record ndarray : Type := NdArray { shape : list nat; body : nest }.

Definition ndim (a : ndarray) : nat := length (shape a).

Definition shape_eqb (s1 s2 : list nat) : bool := bool_decide (s1 = s2).

(** Shape discovery of [np.array] on a nested sequence: every item of a
    sequence must have the same shape, [None] when it is ragged. *)
Fixpoint shape_of (n : nest) : option (list nat) :=
  match n with
  | Leaf _ => Some []
  | Node rows =>
      match rows with
      | [] => Some [0]
      | r :: rest =>
          match shape_of r with
          | None => None
          | Some s =>
              if forallb (fun r' => match shape_of r' with
                                    | Some s' => shape_eqb s s'
                                    | None => false
                                    end) rest
              then Some (S (length rest) :: s)
              else None
          end
      end
  end.

(** The numeric content of a JSON value: numbers and booleans are leaves
    ([True] counts as 1), arrays nest. [None] for a value with a leaf that
    is not a number: numpy's treatment of [null], of text and of objects is
    not modelled. *)
Fixpoint nest_of_json (j : json) : option nest :=
  match j with
  | JNum n => Some (Leaf n)
  | JBool b => Some (Leaf (if b then 1 else 0)%Z)
  | JArr items => Node <$> mapM nest_of_json items
  | JNull | JStr _ | JObj _ => None
  end.

(** What [np.array(items)] does first for a Python list [items] of decoded
    JSON values: it finds the common shape (numpy 1.24 and later: a ragged
    nesting is a [ValueError]). The array holds the integers as given. *)
Definition stack (items : list json) : result ndarray :=
  match mapM nest_of_json items with
  | None => Raise (Unmodelled "numpy: leaf that is not a number")
  | Some ns =>
      match shape_of (Node ns) with
      | None => Raise ValueError
      | Some s => Ok (NdArray s (Node ns))
      end
  end.

(** The integer a float64 holds after conversion from the integer [n]:
    [n] itself up to 2^53 in magnitude, beyond that the nearest integer
    with 53 significant bits, ties to the even one; [None] when the
    result is out of the float64 range, the conversion's
    [OverflowError]. *)
Definition float64_of_int (n : Z) : option Z :=
  let m := Z.abs n in
  if (m <=? 2 ^ 53)%Z then Some n
  else
    let shift := (Z.log2 m - 52)%Z in
    let q := Z.shiftr m shift in
    let r := (m - Z.shiftl q shift)%Z in
    let half := Z.shiftl 1 (shift - 1) in
    let q' := if (half <? r)%Z || ((r =? half)%Z && Z.odd q)
              then (q + 1)%Z else q in
    let v := Z.shiftl q' shift in
    if (2 ^ 1024 <=? v)%Z then None else Some (Z.sgn n * v)%Z.

(** [astype(np.float64)] on the contents, item by item. *)
Fixpoint cast_nest (n : nest) : option nest :=
  match n with
  | Leaf x => Leaf <$> float64_of_int x
  | Node rows => Node <$> mapM cast_nest rows
  end.

(** [np.array(items).astype(np.float64)], line 87: stacked, then
    converted; the shape stays. *)
Definition np_array_float64 (items : list json) : result ndarray :=
  match stack items with
  | Raise e => Raise e
  | Ok a =>
      match cast_nest (body a) with
      | None => Raise OverflowError
      | Some b => Ok (NdArray (shape a) b)
      end
  end.

(** Every number of the contents fits a 64-bit signed integer. *)
Definition in_int64 (z : Z) : bool := ((- 2 ^ 63 <=? z) && (z <? 2 ^ 63))%Z.

Fixpoint int64_leaves (n : nest) : bool :=
  match n with
  | Leaf x => in_int64 x
  | Node rows => forallb int64_leaves rows
  end.

(** [np.array(items)] kept as it is, lines 92, 95 and 98: the integers
    stay exact when they all fit int64. Which element type numpy picks
    when some do not (uint64, float64 or Python objects) is not
    modelled. *)
Definition np_array (items : list json) : result ndarray :=
  match stack items with
  | Raise e => Raise e
  | Ok a =>
      if int64_leaves (body a) then Ok a
      else Raise (Unmodelled "numpy: integer beyond int64")
  end.

(** [n[i]] on the contents, and [n[i0, i1, ...]]. *)
Definition nd_index (n : nest) (i : nat) : option nest :=
  match n with
  | Leaf _ => None
  | Node rows => rows !! i
  end.

Fixpoint at_path (n : nest) (p : list nat) : option nest :=
  match p with
  | [] => Some n
  | i :: p' => nd_index n i ≫= λ m, at_path m p'
  end.

Definition entry (n : nest) (p : list nat) : nest := default (Leaf 0) (at_path n p).

(** The table [[f 0 0 .. f 0 (cols-1)], .., [f (rows-1) 0 ..]]. *)
Definition table (rows cols : nat) (f : nat → nat → nest) : nest :=
  Node ((λ r, Node (f r <$> seq 0 cols)) <$> seq 0 rows).

(** [a.transpose(2, 1, 0)[0]] on a 3-D array: the transposed array has
    shape [(L, C, T)], and taking its item 0 needs [L > 0]. *)
Definition transpose_210_item0 (a : ndarray) : result ndarray :=
  match shape a with
  | [T; C; L] =>
      if Nat.eqb L 0 then Raise IndexError
      else Ok (NdArray [C; T] (table C T (λ c t, entry (body a) [t; c; 0])))
  | _ => Raise ValueError
  end.

(** [a.transpose(1, 0)] on a 2-D array. *)
Definition transpose_10 (a : ndarray) : result ndarray :=
  match shape a with
  | [T; C] => Ok (NdArray [C; T] (table C T (λ c t, entry (body a) [t; c])))
  | _ => Raise ValueError
  end.

(** [a[:, 0]]: too many indices for an array of fewer than two axes, index
    out of bounds when axis 1 is empty. *)
Definition first_column (a : ndarray) : result ndarray :=
  match shape a, body a with
  | N :: d :: rest, Node rows =>
      if Nat.eqb d 0 then Raise IndexError
      else Ok (NdArray (N :: rest) (Node ((λ r, entry r [0]) <$> rows)))
  | _, _ => Raise IndexError
  end.

(** ** Program state *)

(** A ZMQ PULL socket: the port it is bound to, if any, and the messages
    delivered to it and not yet received. *)
Record socket : Type := Socket { bound_port : option N; inbox : list payload }.

Record state : Type := State {
  attrs : gmap string value;        (* the instance dictionary of [self] *)
  platform_system : string;         (* what [platform.system()] answers *)
  module_dir : string;              (* [dirname(abspath(__file__))], absolute *)
  free_ports : list N;              (* ports the OS hands out, next first *)
  contexts : nat;                   (* ZMQ contexts created so far *)
  sockets : list socket;            (* ZMQ sockets, by handle *)
  events : list bool;               (* [multiprocessing.Event] flags, by handle *)
  children : list (list value);     (* command lines of spawned processes *)
}.

Definition with_attrs (f : gmap string value → gmap string value) (st : state) : state :=
  State (f (attrs st)) (platform_system st) (module_dir st) (free_ports st)
        (contexts st) (sockets st) (events st) (children st).

Definition with_sockets (f : list socket → list socket) (st : state) : state :=
  State (attrs st) (platform_system st) (module_dir st) (free_ports st)
        (contexts st) (f (sockets st)) (events st) (children st).

Definition with_events (f : list bool → list bool) (st : state) : state :=
  State (attrs st) (platform_system st) (module_dir st) (free_ports st)
        (contexts st) (sockets st) (f (events st)) (children st).

Definition with_free_ports (p : list N) (st : state) : state :=
  State (attrs st) (platform_system st) (module_dir st) p
        (contexts st) (sockets st) (events st) (children st).

Definition with_contexts (n : nat) (st : state) : state :=
  State (attrs st) (platform_system st) (module_dir st) (free_ports st)
        n (sockets st) (events st) (children st).

(** Messages waiting on any socket. *)
Definition total_pending (st : state) : nat :=
  sum_list (map (λ s, length (inbox s)) (sockets st)).

(** ** The monad of methods: state threaded through, exceptions abort.
    Whatever a method changed before it raised stays changed. *)
Definition M (A : Type) : Type := state → result A * state.

#[global] Instance M_ret : MRet M := λ A a st, (Ok a, st).
#[global] Instance M_bind : MBind M := λ A B f m st,
  match m st with
  | (Ok a, st') => f a st'
  | (Raise e, st') => (Raise e, st')
  end.

Definition raise {A : Type} (e : exn) : M A := λ st, (Raise e, st).

Definition lift {A : Type} (r : result A) : M A := λ st, (r, st).

(** ** Primitive operations *)

(** [self.name]. The class defines none of the names read this way at
    class level, so the instance dictionary decides; what [DeviceInterface]
    provides is whatever its constructor left in that dictionary. *)
Definition getattr (name : string) : M value := λ st,
  match attrs st !! name with
  | Some v => (Ok v, st)
  | None => (Raise (AttributeError name), st)
  end.

(** [self.name = v] *)
Definition setattr (name : string) (v : value) : M unit := λ st,
  (Ok (), with_attrs (insert name v) st).

(** [Event()] *)
Definition new_event : M value := λ st,
  (Ok (VEvent (length (events st))), with_events (λ es, es ++ [false]) st).

(** [v.set()]: an [Event] raises its flag. ZMQ contexts and sockets have a
    [set] that wants an option and a value; the other values have none. *)
Definition event_set (v : value) : M unit := λ st,
  match v with
  | VEvent h =>
      match events st !! h with
      | Some _ => (Ok (), with_events (<[h := true]>) st)
      | None => (Raise (Unmodelled "dangling event handle"), st)
      end
  | VContext _ | VSocket _ => (Raise TypeError, st)
  | VOpaque _ => (Raise (Unmodelled "method of a foreign object"), st)
  | _ => (Raise (AttributeError "set"), st)
  end.

(** [v.recv_json(flags=zmq.NOBLOCK)] with the [except zmq.Again] around
    it: [None] when nothing is pending. A pending message is consumed
    whether or not it decodes. *)
Definition recv_json_noblock (v : value) : M (option json) := λ st,
  match v with
  | VSocket h =>
      match sockets st !! h with
      | Some (Socket port q) =>
          match q with
          | [] => (Ok None, st)
          | Wire j :: rest =>
              (Ok (Some j), with_sockets (<[h := Socket port rest]>) st)
          | Malformed _ :: rest =>
              (Raise JSONDecodeError, with_sockets (<[h := Socket port rest]>) st)
          end
      | None => (Raise (Unmodelled "dangling socket handle"), st)
      end
  | VOpaque _ => (Raise (Unmodelled "method of a foreign object"), st)
  | _ => (Raise (AttributeError "recv_json"), st)
  end.

(** [data[key]] for a string [key]. *)
Fixpoint lookup_field (key : string) (fields : list (string * json)) : option json :=
  match fields with
  | [] => None
  | (k, v) :: rest => if String.eqb k key then Some v else lookup_field key rest
  end.

Definition subscript (data : json) (key : string) : result json :=
  match data with
  | JObj fields =>
      match lookup_field key fields with
      | Some v => Ok v
      | None => Raise (KeyError key)
      end
  | _ => Raise TypeError
  end.

(** [j == s] for a string literal [s]. *)
Definition json_eq_str (j : json) (s : string) : bool :=
  match j with
  | JStr s' => String.eqb s' s
  | _ => false
  end.

(** ** The methods of [BAlertX24_Interface] *)

(** What [process_frames] returns for frames and for timestamps: a Python
    list (the empty cycle) or a numpy array. *)
Inductive pyseq : Type :=
| PyList (items : list json)
| PyArray (a : ndarray).


Definition batch : Type := pyseq * pyseq * list json.

(** The flush loop of [stop_stream]:
    [while True: try: self.socket.recv_json(flags=zmq.NOBLOCK)
     except zmq.error.Again: break]. *)
Fixpoint flush_loop (fuel : nat) : M unit :=
  match fuel with
  | 0 => raise OutOfFuel
  | S fuel' =>
      sock ← getattr "socket";
      r ← recv_json_noblock sock;
      match r with
      | None => mret ()
      | Some _ => flush_loop fuel'
      end
  end.

(** [stop_stream], lines 56 to 65. The flush loop gets one round per
    message pending at the call and one more to find the queue empty. *)
Definition stop_stream : M unit := λ st,
  (te ← getattr "term_event";
   _ ← (if truthy te
        then ev ← getattr "terminate_event"; event_set ev
        else mret ());
   _ ← setattr "device_available" (VBool false);
   flush_loop (S (total_pending st))) st.

Definition get_sampling_rate : M value := getattr "device_nominal_sampling_rate".

Definition is_device_available : M value := getattr "device_available".

(** The receive loop of [process_frames], lines 73 to 84. The three lists
    are the locals [frames], [timestamps] and [messages]. *)
Fixpoint recv_loop (fuel : nat) (frames timestamps messages : list json)
  : M (list json * list json * list json) :=
  match fuel with
  | 0 => raise OutOfFuel
  | S fuel' =>
      sock ← getattr "socket";
      r ← recv_json_noblock sock;
      match r with
      | None => mret (frames, timestamps, messages)
      | Some data =>
          t ← lift (subscript data "t");
          if json_eq_str t "e" then
            m ← lift (subscript data "message");
            _ ← stop_stream;
            recv_loop fuel' frames timestamps (messages ++ [m])
          else if json_eq_str t "d" then
            f ← lift (subscript data "frame");
            ts ← lift (subscript data "timestamp");
            recv_loop fuel' (frames ++ [f]) (timestamps ++ [ts]) messages
          else
            recv_loop fuel' frames timestamps messages
      end
  end.

(** Lines 86 to 99: shape normalisation of what the loop collected. Each
    returned tuple is evaluated left to right. *)
Definition normalise (frames timestamps messages : list json) : result batch :=
  if Nat.ltb 0 (length frames) then
    frames_array ← np_array_float64 frames;
    if Nat.eqb (ndim frames_array) 3 then
      m ← transpose_210_item0 frames_array;
      ts ← np_array timestamps ≫= first_column;
      mret (PyArray m, PyArray ts, messages)
    else if Nat.eqb (ndim frames_array) 2 then
      m ← transpose_10 frames_array;
      ts ← np_array timestamps ≫= first_column;
      mret (PyArray m, PyArray ts, messages)
    else
      ts ← np_array timestamps ≫= first_column;
      mret (PyArray frames_array, PyArray ts, messages)
  else mret (PyList frames, PyList timestamps, messages).

(** [process_frames], lines 70 to 99, with the same bound on its loop. *)
Definition process_frames : M batch := λ st,
  ('(frames, timestamps, messages) ← recv_loop (S (total_pending st)) [] [] [];
   lift (normalise frames timestamps messages)) st.

(** [os.path.join(base, name)] for a relative [name] and a [base] as
    [os.path.abspath] and [dirname] give it: the separator is added unless
    [base] already ends with one. (A bare drive such as [C:], which those
    never give, is the one base after which [ntpath] adds none although
    it does not end with one.) *)
Definition ends_with_sep (sep : ascii) (s : string) : bool :=
  match last (list_ascii_of_string s) with
  | Some c => bool_decide (c = sep) || bool_decide (c = "/"%char)
  | None => true
  end.

Definition path_join (sep : ascii) (base name : string) : string :=
  if ends_with_sep sep base then base +:+ name
  else base +:+ String sep "" +:+ name.

(** The separator [os.path.join] puts in: [os.path] is [ntpath] on
    Windows and [posixpath] elsewhere. *)
Definition os_sep (system : string) : ascii :=
  if String.eqb system "Windows" then "\"%char else "/"%char.

(** [get_executable_path()], lines 12 to 14. *)
Definition executable_path (sep : ascii) (base_dir : string) : string :=
  path_join sep (path_join sep (path_join sep base_dir "x64") "Debug") "BAlertX24.exe".

Definition get_executable_path : M string := λ st,
  (Ok (executable_path (os_sep (platform_system st)) (module_dir st)), st).

(** [str(v)] for the values whose text is determined by the value. The
    text of a list goes through [repr] of its items and that of a host
    object shows its address; [str] returns for them too, with a text this
    development does not determine. *)
Definition py_str (v : value) : result string :=
  match v with
  | VStr s => Ok s
  | VInt n => Ok (pretty n)
  | VNone => Ok "None"
  | VBool b => Ok (if b then "True" else "False")
  | _ => Raise (Unmodelled "str of a container or host object")
  end.

(** [start_stream], lines 49 to 53, returning the local [args] as it
    stands when the body ends. *)
Definition start_stream_args : M (list value) :=
  ev ← new_event;
  _ ← setattr "terminate_event" ev;
  exe ← get_executable_path;
  port ← getattr "port";
  port_text ← lift (py_str port);
  let args := [VStr exe; VStr port_text] in
  lp ← getattr "license_path";
  if truthy lp then
    lp' ← getattr "license_path";
    mret (args ++ [VStr "--license"; lp'])
  else mret args.

(** The method itself: [args] is a local that nothing reads, the body
    ends there and [None] is returned. *)
Definition start_stream : M unit :=
  _ ← start_stream_args; mret ().

(** *** The constructor *)

Record init_args : Type := InitArgs {
  _device_name : value;
  _device_type : value;
  _device_nominal_sampling_rate : value;
  _ch_names : value;
  license_path : value;
}.

Definition default_args : init_args :=
  InitArgs (VStr "BAlertX24") (VStr "eeg") (VInt 256) VNone VNone.

(** The names the module binds at import time (lines 1 to 17). *)
Definition module_names : list string :=
  ["time"; "zmq"; "subprocess"; "Process"; "Event"; "DeviceInterface";
   "get_clock_time"; "np"; "os"; "platform"; "dialog_popup";
   "get_executable_path"; "BAlertX24_Interface"].

Definition module_globals : gmap string value :=
  list_to_map (map (λ n, (n, VOpaque n)) module_names).

(** A name that is not local to the function is read from the module
    namespace [g] when the statement runs. *)
Definition load_global (g : gmap string value) (name : string) : M value := λ st,
  match g !! name with
  | Some v => (Ok v, st)
  | None => (Raise (NameError name), st)
  end.

(** Line 37. *)
Definition ch_names_literal : list string :=
  ["Fp1"; "F7"; "F8"; "T4"; "T6"; "T5"; "T3"; "Fp2"; "O1"; "P3"; "Pz"; "F3";
   "Fz"; "F4"; "C4"; "P4"; "POz"; "C3"; "Cz"; "O2"; "EKG"; "AUX1"; "AUX2"; "AUX3"].

(** [zmq.Context()] *)
Definition zmq_Context : M value := λ st,
  (Ok (VContext (contexts st)), with_contexts (S (contexts st)) st).

(** [ctx.socket(zmq.PULL)] *)
Definition zmq_socket (ctx : value) : M value := λ st,
  match ctx with
  | VContext _ =>
      (Ok (VSocket (length (sockets st))),
       with_sockets (λ ss, ss ++ [Socket None []]) st)
  | VOpaque _ => (Raise (Unmodelled "method of a foreign object"), st)
  | _ => (Raise (AttributeError "socket"), st)
  end.

(** [sock.bind("tcp://*:0")]: the OS picks the port. *)
Definition zmq_bind_any (sock : value) : M unit := λ st,
  match sock with
  | VSocket h =>
      match sockets st !! h, free_ports st with
      | Some (Socket _ q), p :: rest =>
          (Ok (), with_free_ports rest (with_sockets (<[h := Socket (Some p) q]>) st))
      | Some _, [] => (Raise ZMQError, st)
      | None, _ => (Raise (Unmodelled "dangling socket handle"), st)
      end
  | VOpaque _ => (Raise (Unmodelled "method of a foreign object"), st)
  | _ => (Raise (AttributeError "bind"), st)
  end.

(** [sock.getsockopt(zmq.LAST_ENDPOINT).decode("utf-8")] *)
Definition zmq_last_endpoint (sock : value) : M string := λ st,
  match sock with
  | VSocket h =>
      match sockets st !! h with
      | Some (Socket (Some p) _) => (Ok ("tcp://0.0.0.0:" +:+ pretty p), st)
      | Some (Socket None _) => (Ok "", st)
      | None => (Raise (Unmodelled "dangling socket handle"), st)
      end
  | VContext _ | VOpaque _ => (Raise (Unmodelled "method of a foreign object"), st)
  | _ => (Raise (AttributeError "getsockopt"), st)
  end.

(** [s.split(sep)] for a one-character separator, and [s.split(sep)[-1]]. *)
Fixpoint split_on (sep : ascii) (s : string) : list string :=
  match s with
  | EmptyString => [EmptyString]
  | String c rest =>
      if bool_decide (c = sep) then EmptyString :: split_on sep rest
      else match split_on sep rest with
           | h :: t => String c h :: t
           | [] => [String c EmptyString]
           end
  end.

Definition last_field (sep : ascii) (s : string) : string :=
  default EmptyString (last (split_on sep s)).

Section Constructor.

(** [DeviceInterface.__init__] is defined outside this file. It is taken
    as whatever function of its four keyword arguments yields the
    instance dictionary it leaves behind, or the exception it raises. *)
Variable DeviceInterface_init :
  value → value → value → value → result (gmap string value).

(** The module namespace at the time the constructor runs. *)
Variable globals : gmap string value.

(** [BAlertX24_Interface.__init__], lines 18 to 47. *)
Definition __init__ (a : init_args) : M unit :=
  base ← lift (DeviceInterface_init (_device_name a) (_device_type a)
                 (_device_nominal_sampling_rate a) (VBool false));
  _ ← (λ st, (Ok (), with_attrs (λ d, base ∪ d) st)) : M unit;
  sys ← (λ st, (Ok (platform_system st), st)) : M string;
  if negb (String.eqb sys "Windows") then
    raise (EnvironmentError
             "Platform Not Supported: BAlertX24 is only supported on Windows")
  else
    _ ← setattr "stream_name" (_device_name a);
    _ ← setattr "stream_type" (_device_type a);
    lp ← load_global globals "_license_path";
    _ ← setattr "stream_path" lp;
    _ ← setattr "ch_names" (VList (map VStr ch_names_literal));
    ctx ← zmq_Context;
    _ ← setattr "context" ctx;
    ctx' ← getattr "context";
    sock ← zmq_socket ctx';
    _ ← setattr "socket" sock;
    sock' ← getattr "socket";
    _ ← zmq_bind_any sock';
    sock'' ← getattr "socket";
    ep ← zmq_last_endpoint sock'';
    _ ← setattr "port" (VStr (last_field ":" ep));
    _ ← setattr "device_process" VNone;
    _ ← setattr "terminate_event" VNone;
    setattr "device_available" (VBool false).

(** [BAlertX24_Interface(...)]: a fresh instance, then [__init__]. The
    instance is handed to the caller only when [__init__] returns. *)
Definition construct (a : init_args) (st : state) : result () * state :=
  __init__ a (with_attrs (λ _, ∅) st).

End Constructor.

(** ** Vocabulary of the statements *)

(** The matrix component of [normalise], by rank of the stacked frames. *)
Definition matrix_of (frames_array : ndarray) : result ndarray :=
  if Nat.eqb (ndim frames_array) 3 then transpose_210_item0 frames_array
  else if Nat.eqb (ndim frames_array) 2 then transpose_10 frames_array
  else Ok frames_array.

(** The wire messages of the driver: [{"t": "d", "frame": .., "timestamp":
    ..}] and [{"t": "e", "message": ..}]. *)
Definition data_message (frame timestamp : json) : json :=
  JObj [("t", JStr "d"); ("frame", frame); ("timestamp", timestamp)].

Definition event_message (text : string) : json :=
  JObj [("t", JStr "e"); ("message", JStr text)].

(** [j] is a data message carrying the frame [p.1] and the timestamp
    [p.2], whatever else it carries. *)
Definition is_data (j : json) (p : json * json) : Prop :=
  subscript j "t" = Ok (JStr "d") ∧
  subscript j "frame" = Ok p.1 ∧
  subscript j "timestamp" = Ok p.2.

(** [self.socket] is the live socket [h], bound to [port], with [q]
    pending. *)
Definition listening (st : state) (h : nat) (port : option N) (q : list payload) : Prop :=
  attrs st !! "socket" = Some (VSocket h) ∧
  sockets st !! h = Some (Socket port q).

(** The state with the pending messages of socket [h] replaced by [q]. *)
Definition with_inbox (h : nat) (port : option N) (q : list payload) (st : state) : state :=
  with_sockets (<[h := Socket port q]>) st.

(** One [self.socket.recv_json(flags=zmq.NOBLOCK)] with its [except]. *)
Definition receive : M (option json) :=
  sock ← getattr "socket"; recv_json_noblock sock.

(** The driver process delivers [msgs] to socket [h]. *)
Definition deliver (h : nat) (msgs : list payload) (st : state) : state :=
  with_sockets (λ ss, match ss !! h with
                      | Some (Socket port q) => <[h := Socket port (q ++ msgs)]> ss
                      | None => ss
                      end) st.

(** The session is idle: not available, and no termination signal that is
    still unset (none allocated yet, or the one of a stopped run). *)
Definition idle (st : state) : Prop :=
  attrs st !! "device_available" = Some (VBool false) ∧
  ∀ h, attrs st !! "terminate_event" = Some (VEvent h) → events st !! h = Some true.

(** *** Concrete hosts and sessions *)

(** Modelled from the spec: [DeviceInterface.__init__], the base-class
    constructor, which is not in this file. The spec lists what the base
    contributes to a session: device identifier, device type tag, nominal
    sample rate and the availability support flag. *)
Definition spec_DeviceInterface_init (name type rate supports : value)
  : result (gmap string value) :=
  Ok (list_to_map [("_device_name", name); ("_device_type", type);
                   ("device_nominal_sampling_rate", rate);
                   ("is_supports_device_availability", supports)]).

(** The constructor arguments with [_ch_names] replaced by [v]. *)
Definition set_ch_names (v : value) (a : init_args) : init_args :=
  InitArgs (_device_name a) (_device_type a) (_device_nominal_sampling_rate a)
           v (license_path a).

(** A host with nothing allocated yet. *)
Definition host (system : string) : state :=
  State ∅ system "C:\PhysioLabXR\physiolabxr\interfaces\DeviceInterface\BAlertX24"
        [49152%N; 49153%N] 0 [] [] [].

(** The instance the constructor body builds once [_license_path] resolves:
    the module namespace is patched with that one name. *)
Definition patched_globals : gmap string value :=
  <["_license_path" := VNone]> module_globals.

Definition built_session : state :=
  (construct spec_DeviceInterface_init patched_globals default_args (host "Windows")).2.

(** The same instance with the two attributes the methods read and no line
    of the class assigns. *)
Definition patched_session : state :=
  with_attrs (λ d, <["term_event" := VBool true]> (<["license_path" := VNone]> d))
             built_session.

(** The patched instance after [start_stream]. *)
Definition started_session : state := (start_stream patched_session).2.

(** The scenario of the spec's example. *)
Definition scenario_data : json :=
  data_message (JArr [JArr [JNum 1; JNum 2]; JArr [JNum 3; JNum 4]])
               (JArr [JArr [JNum 100]; JArr [JNum 101]]).

Definition scenario_event : json := event_message "fault".

Definition scenario_inbox : list payload := [Wire scenario_data; Wire scenario_event].



(** The instance with [license_path] bound, so that [start_stream] runs to
    its end, and the state that call leaves: a session that is streaming. *)
Definition licensed_session : state :=
  with_attrs (<["license_path" := VStr "C:\licenses\balert.lic"]>) built_session.

Definition streaming_session : state := (start_stream licensed_session).2.

(** An instance on a host that is not Windows, where the constructor
    cannot build one: the attributes [start_stream] reads are put in place
    by hand. *)
Definition posix_session : state :=
  State (<["license_path" := VNone]> (<["port" := VInt 5555]> ∅)) "Linux"
        "/opt/PhysioLabXR/physiolabxr/interfaces/DeviceInterface/BAlertX24"
        [] 0 [] [] [].

(** A stopped session: [stop_stream] has completed after a start. *)
Definition stopped_session : state := (stop_stream started_session).2.

(** A data message in the driver's usual form: one reading per channel
    (two channels here) and a one-element timestamp. *)
Definition flat_data : json :=
  data_message (JArr [JNum 1; JNum 2]) (JArr [JNum 100]).



Definition huge_data : json :=
  data_message (JArr [JNum (10 ^ 400); JNum 2]) (JArr [JNum 100]).

(** What the spec's example expects back, and what the code hands back. *)
Definition scenario_expected : batch :=
  (PyArray (NdArray [2; 2] (Node [Node [Leaf 1; Leaf 3]; Node [Leaf 2; Leaf 4]])),
   PyArray (NdArray [2] (Node [Leaf 100; Leaf 101])),
   [JStr "fault"]).

Definition scenario_returned : batch :=
  (PyArray (NdArray [2; 1] (Node [Node [Leaf 1]; Node [Leaf 3]])),
   PyArray (NdArray [1; 1] (Node [Node [Leaf 100]])),
   [JStr "fault"]).

(** ** The script at the end of the file, lines 117 to 148 *)

(** [for _ in range(n): ... process_frames() ...], lines 127 to 140. What
    the loop prints and its [time.sleep] leave the state alone and are not
    part of the model. *)
Fixpoint poll_times (n : nat) : M unit :=
  match n with
  | 0 => mret ()
  | S n' => _ ← process_frames; poll_times n'
  end.

(** [try: body finally: cleanup]: the cleanup runs on every way out of the
    body, and an exception of the cleanup replaces the pending one. *)
Definition try_finally {A : Type} (body : M A) (cleanup : M unit) : M A := λ st,
  match body st with
  | (Ok a, st1) =>
      match cleanup st1 with
      | (Ok _, st2) => (Ok a, st2)
      | (Raise e, st2) => (Raise e, st2)
      end
  | (Raise e, st1) =>
      match cleanup st1 with
      | (Ok _, st2) => (Raise e, st2)
      | (Raise e', st2) => (Raise e', st2)
      end
  end.

(** The body of [if __name__ == "__main__":]. The instance is built with
    the default arguments in the namespace of the module; printing the port
    reads [port]; construction and [start_stream] stand before the [try].
    [KeyboardInterrupt] comes from outside the program and is left out. *)
Definition main (DeviceInterface_init :
                   value → value → value → value → result (gmap string value))
  : M unit :=
  _ ← construct DeviceInterface_init module_globals default_args;
  _ ← getattr "port";
  _ ← start_stream;
  try_finally (poll_times (100 * 100)) stop_stream.

(** ** Vocabulary of the further properties *)

(** [j] carries a tag that is neither "e" nor "d". *)
Definition is_other (j : json) : Prop :=
  ∃ t, subscript j "t" = Ok t ∧
       json_eq_str t "e" = false ∧ json_eq_str t "d" = false.

(** [pairs] are the frames and timestamps of the data messages among
    [msgs], in order; every other message of [msgs] has a foreign tag. *)
Inductive collects : list json → list (json * json) → Prop :=
| collects_nil : collects [] []
| collects_data j p msgs pairs :
    is_data j p → collects msgs pairs → collects (j :: msgs) (p :: pairs)
| collects_other j msgs pairs :
    is_other j → collects msgs pairs → collects (j :: msgs) pairs.

(** The exception one round of the receive loop raises on [j] before it
    has any effect beyond receiving it: a failing [data['t']],
    [data['message']], [data['frame']] or [data['timestamp']]. *)
Definition message_error (j : json) : option exn :=
  match subscript j "t" with
  | Raise e => Some e
  | Ok t =>
      if json_eq_str t "e" then
        match subscript j "message" with Raise e => Some e | Ok _ => None end
      else if json_eq_str t "d" then
        match subscript j "frame" with
        | Raise e => Some e
        | Ok _ =>
            match subscript j "timestamp" with Raise e => Some e | Ok _ => None end
        end
      else None
  end.

(** The driver's usual data message: one reading per channel and a
    one-element timestamp. *)
Definition flat_message (row : list Z * Z) : json :=
  data_message (JArr (JNum <$> row.1)) (JArr [JNum row.2]).

(** The module directory is not a bare drive: on Windows it does not end
    with a colon. *)
Definition no_bare_drive (st : state) : Prop :=
  platform_system st = "Windows" →
  last (list_ascii_of_string (module_dir st)) ≠ Some ":"%char.

(** The character [c] occurs in [s]. *)
Fixpoint occurs (c : ascii) (s : string) : bool :=
  match s with
  | EmptyString => false
  | String c' rest => bool_decide (c' = c) || occurs c rest
  end.

(** The instance dictionary a returning constructor call leaves, from the
    dictionary [d] of the base class. *)
Definition built_attrs (d : gmap string value) (a : init_args) (lp : value)
    (ctx sock : nat) (port_text : string) : gmap string value :=
  <["device_available" := VBool false]>
    (<["terminate_event" := VNone]>
       (<["device_process" := VNone]>
          (<["port" := VStr port_text]>
             (<["socket" := VSocket sock]>
                (<["context" := VContext ctx]>
                   (<["ch_names" := VList (map VStr ch_names_literal)]>
                      (<["stream_path" := lp]>
                         (<["stream_type" := _device_type a]>
                            (<["stream_name" := _device_name a]> (d ∪ ∅)))))))))).

(** * Properties *)

(** ** Arrays *)

Section Arrays.

Implicit Types (n x : nest) (s : list nat) (a : ndarray).


(** In a well-shaped array every in-range item exists and has the shape
    of the remaining axes. *)
Lemma shape_of_index n d s i :
  shape_of n = Some (d :: s) → i < d →
  ∃ x, nd_index n i = Some x ∧ shape_of x = Some s.
Proof.
  destruct n as [z|rows]; [done|].
  destruct rows as [|r rest]; simpl.
  - intros [= <- <-] ?. lia.
  - destruct (shape_of r) as [s0|] eqn:Hr; [|done].
    destruct (forallb _ rest) eqn:Hall; [|done].
    intros [= <- <-] Hi.
    destruct i as [|i]; [by exists r|].
    destruct (lookup_lt_is_Some_2 rest i) as [x Hx]; [lia|].
    exists x. split; [done|].
    rewrite forallb_forall in Hall.
    specialize (Hall x). rewrite <- list_elem_of_In in Hall.
    specialize (Hall (list_elem_of_lookup_2 _ _ _ Hx)).
    destruct (shape_of x) as [sx|]; [|done].
    apply bool_decide_eq_true in Hall. by subst.
Qed.

Lemma shape_of_nil_Leaf x : shape_of x = Some [] → ∃ z, x = Leaf z.
Proof.
  destruct x as [z|rows]; [by exists z|].
  destruct rows as [|r rest]; simpl; [done|].
  destruct (shape_of r); [|done]. by destruct (forallb _ rest).
Qed.

(** A number sits at every in-range index of a well-shaped array. *)
Lemma shape_of_at_path p : ∀ n,
  shape_of n = Some p.*1 → Forall (λ id, id.2 < id.1) p →
  ∃ z, at_path n p.*2 = Some (Leaf z).
Proof.
  induction p as [|[d i] p IH]; intros n Hn Hp; simpl in *.
  - destruct (shape_of_nil_Leaf _ Hn) as [z ->]. by exists z.
  - apply Forall_cons in Hp as [Hi Hp]. simpl in Hi.
    destruct (shape_of_index _ _ _ _ Hn Hi) as (x & -> & Hx). simpl.
    by apply IH.
Qed.

Lemma table_entry rows cols f r c :
  r < rows → c < cols → at_path (table rows cols f) [r; c] = Some (f r c).
Proof.
  intros Hr Hc. unfold table. simpl.
  rewrite list_lookup_fmap, lookup_seq_lt by done. simpl.
  by rewrite list_lookup_fmap, lookup_seq_lt.
Qed.

Lemma stack_shaped items a :
  stack items = Ok a →
  shape_of (body a) = Some (shape a) ∧
  ∃ ns, mapM nest_of_json items = Some ns ∧ body a = Node ns.
Proof.
  unfold stack. destruct (mapM nest_of_json items) as [ns|]; [|done].
  destruct (shape_of (Node ns)) as [s|] eqn:Hs; [|done].
  intros [= <-]. simpl. eauto.
Qed.





(** Induction on the contents of an array, rows included. *)
Lemma nest_rows_ind (P : nest → Prop) :
  (∀ z : Z, P (Leaf z)) →
  (∀ rows, Forall P rows → P (Node rows)) →
  ∀ n, P n.
Proof.
  intros HLeaf HNode. fix IH 1. intros [z|rows]; [apply HLeaf|].
  apply HNode. induction rows as [|r rows IHrows]; constructor; [apply IH|done].
Qed.

(** The shape of a nesting is decided by the shapes of its rows. *)
Lemma shape_of_rows (rows rows' : list nest) :
  Forall2 (λ r r', shape_of r' = shape_of r) rows rows' →
  shape_of (Node rows') = shape_of (Node rows).
Proof.
  intros [|r r' rest rest' Hr Hrest]; [done|]. simpl. rewrite Hr.
  destruct (shape_of r) as [s|]; [|done].
  rewrite (Forall2_length _ _ _ Hrest).
  assert (forallb (λ x, match shape_of x with
                        | Some s' => shape_eqb s s'
                        | None => false
                        end) rest'
          = forallb (λ x, match shape_of x with
                          | Some s' => shape_eqb s s'
                          | None => false
                          end) rest) as ->; [|done].
  induction Hrest as [|x x' l l' Hx _ IH]; [done|]. simpl. by rewrite Hx, IH.
Qed.

(** Conversion to float64 keeps the shape. *)
Lemma cast_nest_shape n : ∀ n', cast_nest n = Some n' → shape_of n' = shape_of n.
Proof.
  induction n as [x|rows IH] using nest_rows_ind; intros n'; simpl.
  - destruct (float64_of_int x); [|done]. by intros [= <-].
  - destruct (mapM cast_nest rows) as [rows'|] eqn:Hrows; [|done].
    intros [= <-]. apply shape_of_rows.
    apply mapM_Some in Hrows. revert IH.
    induction Hrows as [|r r' l l' Hc _ IHF]; intros IH; [constructor|].
    apply Forall_cons in IH as [Hr Hl]. constructor; [by apply Hr|by apply IHF].
Qed.

Lemma np_array_float64_shaped items a :
  np_array_float64 items = Ok a → shape_of (body a) = Some (shape a).
Proof.
  unfold np_array_float64. destruct (stack items) as [a'|e] eqn:Hst; [|done].
  destruct (cast_nest (body a')) as [b|] eqn:Hb; [|done].
  intros [= <-]. simpl. rewrite (cast_nest_shape _ _ Hb).
  by destruct (stack_shaped _ _ Hst).
Qed.




(** Up to 2^53 in magnitude the conversion is exact. *)
Lemma float64_of_int_exact (n : Z) :
  (Z.abs n ≤ 2 ^ 53)%Z → float64_of_int n = Some n.
Proof.
  intros H. unfold float64_of_int. cbv zeta.
  by rewrite (proj2 (Z.leb_le _ _) H).
Qed.

End Arrays.

(** ** Receiving *)

Section Receiving.

Implicit Types (st : state) (h : nat) (q : list payload).

Lemma bind_run {A B : Type} (m : M A) (f : A → M B) st :
  (m ≫= f) st = match m st with
                | (Ok a, st') => f a st'
                | (Raise e, st') => (Raise e, st')
                end.
Proof. reflexivity. Qed.

Lemma with_inbox_same st h port q :
  sockets st !! h = Some (Socket port q) → with_inbox h port q st = st.
Proof.
  intros H. destruct st. unfold with_inbox, with_sockets. simpl in *.
  by rewrite list_insert_id.
Qed.

Lemma with_inbox_twice st h port q q' :
  with_inbox h port q' (with_inbox h port q st) = with_inbox h port q' st.
Proof.
  unfold with_inbox, with_sockets. simpl. by rewrite list_insert_insert_eq.
Qed.

Lemma listening_with_inbox st h port q q' :
  listening st h port q → listening (with_inbox h port q' st) h port q'.
Proof.
  intros [Ha Hs]. split; [done|]. simpl.
  apply list_lookup_insert_eq. by eapply lookup_lt_Some.
Qed.

Lemma receive_empty st h port :
  listening st h port [] → receive st = (Ok None, st).
Proof.
  intros [Ha Hs]. unfold receive. rewrite bind_run. unfold getattr.
  rewrite Ha. simpl. by rewrite Hs.
Qed.

Lemma receive_wire st h port j q :
  listening st h port (Wire j :: q) →
  receive st = (Ok (Some j), with_inbox h port q st).
Proof.
  intros [Ha Hs]. unfold receive. rewrite bind_run. unfold getattr.
  rewrite Ha. simpl. by rewrite Hs.
Qed.

Lemma receive_malformed st h port raw q :
  listening st h port (Malformed raw :: q) →
  receive st = (Raise JSONDecodeError, with_inbox h port q st).
Proof.
  intros [Ha Hs]. unfold receive. rewrite bind_run. unfold getattr.
  rewrite Ha. simpl. by rewrite Hs.
Qed.

Lemma recv_loop_unfold fuel frames timestamps messages st :
  recv_loop (S fuel) frames timestamps messages st =
  match receive st with
  | (Raise e, st') => (Raise e, st')
  | (Ok None, st') => (Ok (frames, timestamps, messages), st')
  | (Ok (Some data), st') =>
      (t ← lift (subscript data "t");
       if json_eq_str t "e" then
         m ← lift (subscript data "message");
         _ ← stop_stream;
         recv_loop fuel frames timestamps (messages ++ [m])
       else if json_eq_str t "d" then
         f ← lift (subscript data "frame");
         ts ← lift (subscript data "timestamp");
         recv_loop fuel (frames ++ [f]) (timestamps ++ [ts]) messages
       else recv_loop fuel frames timestamps messages) st'
  end.
Proof.
  simpl. unfold receive, mbind, M_bind.
  destruct (getattr "socket" st) as [[sock|e] st1]; [|done].
  by destruct (recv_json_noblock sock st1) as [[[data|]|e] st2].
Qed.

Lemma flush_loop_unfold fuel st :
  flush_loop (S fuel) st =
  match receive st with
  | (Raise e, st') => (Raise e, st')
  | (Ok None, st') => (Ok (), st')
  | (Ok (Some _), st') => flush_loop fuel st'
  end.
Proof.
  simpl. unfold receive, mbind, M_bind.
  destruct (getattr "socket" st) as [[sock|e] st1]; [|done].
  by destruct (recv_json_noblock sock st1) as [[[data|]|e] st2].
Qed.

(** A run of data messages at the head of the queue is collected in
    arrival order, one loop round each. *)
Lemma recv_loop_data msgs pairs :
  Forall2 is_data msgs pairs →
  ∀ rest fuel frames timestamps messages st h port,
    listening st h port ((Wire <$> msgs) ++ rest) →
    recv_loop (length msgs + fuel) frames timestamps messages st =
    recv_loop fuel (frames ++ pairs.*1) (timestamps ++ pairs.*2) messages
              (with_inbox h port rest st).
Proof.
  induction 1 as [|j [f ts] msgs pairs (Ht & Hf & Hts) _ IH];
    intros rest fuel frames timestamps messages st h port Hl.
  - simpl. rewrite !app_nil_r. destruct Hl as [_ Hs]. by rewrite with_inbox_same.
  - change (length (j :: msgs) + fuel) with (S (length msgs + fuel)).
    change ((Wire <$> j :: msgs) ++ rest) with (Wire j :: (Wire <$> msgs) ++ rest) in Hl.
    rewrite recv_loop_unfold, (receive_wire _ _ _ _ _ Hl).
    simpl in Hf, Hts.
    rewrite bind_run. unfold lift at 1. rewrite Ht.
    change (json_eq_str (JStr "d") "e") with false.
    change (json_eq_str (JStr "d") "d") with true. cbv iota.
    rewrite bind_run. unfold lift at 1. rewrite Hf.
    rewrite bind_run. unfold lift at 1. rewrite Hts.
    rewrite (IH rest fuel _ _ _ _ h port);
      [|by eapply listening_with_inbox].
    by rewrite with_inbox_twice, !fmap_cons, <- !app_assoc.
Qed.

End Receiving.

(** ** The loops end within their bound *)

Section Fuel.

Implicit Types (st : state) (h : nat) (q : list payload).

Lemma pending_insert (ss : list socket) h port q q' :
  ss !! h = Some (Socket port q) →
  sum_list (map (λ s, length (inbox s)) (<[h := Socket port q']> ss)) + length q =
  sum_list (map (λ s, length (inbox s)) ss) + length q'.
Proof.
  revert h. induction ss as [|s ss IH]; intros [|h] Hh; simplify_eq/=; [lia|].
  specialize (IH h Hh). lia.
Qed.

Lemma total_pending_with_inbox st h port q q' :
  sockets st !! h = Some (Socket port q) →
  total_pending (with_inbox h port q' st) + length q = total_pending st + length q'.
Proof. intros H. unfold total_pending. simpl. by apply pending_insert. Qed.

Lemma total_pending_listening st h port q :
  listening st h port q → length q ≤ total_pending st.
Proof.
  intros [_ Hs]. pose proof (total_pending_with_inbox st h port q [] Hs) as H.
  simpl in H. lia.
Qed.

(** The four ways a receive can go. *)
Lemma receive_cases st :
  (∃ e, receive st = (Raise e, st) ∧ e ≠ OutOfFuel)
  ∨ (∃ h port, listening st h port [] ∧ receive st = (Ok None, st))
  ∨ (∃ h port j q, listening st h port (Wire j :: q) ∧
       receive st = (Ok (Some j), with_inbox h port q st))
  ∨ (∃ h port raw q, listening st h port (Malformed raw :: q) ∧
       receive st = (Raise JSONDecodeError, with_inbox h port q st)).
Proof.
  unfold receive. rewrite bind_run. unfold getattr.
  destruct (attrs st !! "socket") as [v|] eqn:Ha; [|left; by eexists].
  destruct v; simpl; try (left; by eexists).
  destruct (sockets st !! h) as [[port q]|] eqn:Hs; [|left; by eexists].
  destruct q as [|[j|raw] q]; right.
  - left. by exists h, port.
  - right. left. by exists h, port, j, q.
  - right. right. by exists h, port, raw, q.
Qed.

Lemma flush_loop_bounded fuel : ∀ st,
  total_pending st < fuel →
  ∃ r st', flush_loop fuel st = (r, st') ∧ r ≠ Raise OutOfFuel ∧
           attrs st' = attrs st ∧ events st' = events st ∧
           children st' = children st ∧
           total_pending st' ≤ total_pending st ∧
           (r = Ok () → receive st' = (Ok None, st') ∧
                        ∀ h port q, listening st h port q → listening st' h port []).
Proof.
  induction fuel as [|fuel IH]; intros st Hlt; [lia|].
  rewrite flush_loop_unfold.
  destruct (receive_cases st) as
    [(e & -> & He)|[(h & port & Hl & ->)|[(h & port & j & q & Hl & ->)
                                         |(h & port & raw & q & Hl & ->)]]].
  - exists (Raise e), st. split_and!; try done; congruence.
  - exists (Ok ()), st. split_and!; try done. intros _. split; [by eapply receive_empty|].
    destruct Hl as [Ha Hs]. intros h' port' q' [Ha' Hs']. by simplify_eq.
  - pose proof (total_pending_with_inbox st h port _ q (proj2 Hl)) as Hp.
    simpl in Hp.
    destruct (IH (with_inbox h port q st))
      as (r & st' & -> & Hr & Hat & Hev & Hch & Hle & Hok); [lia|].
    exists r, st'. split_and!; try done; [lia|].
    intros Hrok. destruct (Hok Hrok) as [Hrecv Hlis]. split; [done|].
    intros h' port' q' [Ha' Hs']. destruct Hl as [Ha Hs]. simplify_eq.
    eapply Hlis. by eapply listening_with_inbox.
  - pose proof (total_pending_with_inbox st h port _ q (proj2 Hl)) as Hp.
    simpl in Hp.
    exists (Raise JSONDecodeError), (with_inbox h port q st).
    split_and!; try done. lia.
Qed.

Lemma stop_stream_unfold st :
  stop_stream st =
  match attrs st !! "term_event" with
  | None => (Raise (AttributeError "term_event"), st)
  | Some te =>
      if truthy te then
        match attrs st !! "terminate_event" with
        | None => (Raise (AttributeError "terminate_event"), st)
        | Some ev =>
            match event_set ev st with
            | (Ok _, st1) =>
                flush_loop (S (total_pending st))
                  (with_attrs (insert "device_available" (VBool false)) st1)
            | (Raise e, st1) => (Raise e, st1)
            end
        end
      else flush_loop (S (total_pending st))
             (with_attrs (insert "device_available" (VBool false)) st)
  end.
Proof.
  unfold stop_stream. rewrite bind_run. unfold getattr at 1.
  destruct (attrs st !! "term_event") as [te|]; [|done].
  rewrite bind_run. destruct (truthy te); [|done].
  rewrite bind_run. unfold getattr at 1.
  destruct (attrs st !! "terminate_event") as [ev|]; [|done].
  by destruct (event_set ev st) as [[[]|e] st1].
Qed.

(** [stop_stream] either fails on its first lines, leaving everything as it
    was, or reaches the flush loop with availability cleared. *)
Lemma stop_stream_cases st :
  (∃ e, stop_stream st = (Raise e, st) ∧ e ≠ OutOfFuel)
  ∨ (∃ st1, stop_stream st = flush_loop (S (total_pending st)) st1 ∧
            sockets st1 = sockets st ∧ children st1 = children st ∧
            attrs st1 = <["device_available" := VBool false]> (attrs st) ∧
            ∃ te, attrs st !! "term_event" = Some te ∧
                  if truthy te
                  then ∃ h, attrs st !! "terminate_event" = Some (VEvent h) ∧
                            events st1 = <[h := true]> (events st)
                  else events st1 = events st).
Proof.
  rewrite stop_stream_unfold.
  destruct (attrs st !! "term_event") as [te|] eqn:Hte; [|left; by eexists].
  destruct (truthy te) eqn:Htruthy.
  - destruct (attrs st !! "terminate_event") as [ev|] eqn:Hev; [|left; by eexists].
    destruct ev; simpl; try (left; by eexists).
    destruct (events st !! h) eqn:Hh; [|left; by eexists].
    right. eexists. split; [reflexivity|]. split_and!; try done.
    exists te. rewrite Htruthy. split; [done|]. by exists h.
  - right. eexists. split; [reflexivity|]. split_and!; try done.
    exists te. by rewrite Htruthy.
Qed.

Lemma stop_stream_bounded st :
  ∃ r st', stop_stream st = (r, st') ∧ r ≠ Raise OutOfFuel ∧
           total_pending st' ≤ total_pending st ∧ children st' = children st.
Proof.
  destruct (stop_stream_cases st) as [(e & -> & He)|(st1 & -> & Hs & Hc & _)].
  - exists (Raise e), st. split_and!; try done. congruence.
  - assert (total_pending st1 = total_pending st) as Hp
      by (unfold total_pending; by rewrite Hs).
    destruct (flush_loop_bounded (S (total_pending st)) st1)
      as (r & st' & -> & Hr & _ & _ & Hch & Hle & _); [lia|].
    exists r, st'. split_and!; try done; [lia|congruence].
Qed.

(** When [stop_stream] returns, availability is cleared and nothing is
    pending on [self.socket]. *)
Lemma stop_stream_returns st st' :
  stop_stream st = (Ok (), st') →
  attrs st' = <["device_available" := VBool false]> (attrs st) ∧
  receive st' = (Ok None, st') ∧
  (∀ h port q, listening st h port q → listening st' h port []).
Proof.
  destruct (stop_stream_cases st) as [(e & -> & He)|(st1 & -> & Hs & Hc & Ha & _)];
    [done|].
  assert (total_pending st1 = total_pending st) as Hp
    by (unfold total_pending; by rewrite Hs).
  destruct (flush_loop_bounded (S (total_pending st)) st1)
    as (r & st2 & -> & Hr & Hat & _ & _ & _ & Hok); [lia|].
  intros [= -> ->]. destruct (Hok eq_refl) as [Hrecv Hlis].
  split_and!; [congruence|done|].
  intros h port q [Hq1 Hq2]. apply (Hlis h port q). split; [|congruence].
  rewrite Ha. by rewrite lookup_insert_ne.
Qed.

Lemma stack_bounded items : stack items ≠ Raise OutOfFuel.
Proof. unfold stack. by repeat case_match. Qed.

Lemma np_array_float64_bounded items : np_array_float64 items ≠ Raise OutOfFuel.
Proof.
  unfold np_array_float64. pose proof (stack_bounded items) as H.
  destruct (stack items) as [a|e]; [by destruct (cast_nest (body a))|].
  intros [= ->]. by apply H.
Qed.

Lemma timestamps_bounded items :
  np_array items ≫= first_column ≠ Raise OutOfFuel.
Proof.
  unfold np_array. pose proof (stack_bounded items) as H.
  destruct (stack items) as [a|e]; [|intros [= ->]; by apply H].
  destruct (int64_leaves (body a)); [|done]. simpl.
  unfold first_column. by repeat case_match.
Qed.

Lemma normalise_bounded frames timestamps messages :
  normalise frames timestamps messages ≠ Raise OutOfFuel.
Proof.
  unfold normalise. destruct (0 <? length frames); [|done].
  pose proof (np_array_float64_bounded frames) as HA.
  pose proof (timestamps_bounded timestamps) as HT.
  destruct (np_array_float64 frames) as [A|e]; [|intros [= ->]; by apply HA].
  simpl. destruct (np_array timestamps ≫= first_column) as [R|e] eqn:HR.
  - unfold transpose_210_item0, transpose_10. by repeat case_match.
  - assert (e ≠ OutOfFuel) as He by (intros ->; by apply HT).
    unfold transpose_210_item0, transpose_10.
    repeat case_match; simpl; try done; by intros [= ->].
Qed.

Lemma subscript_bounded data key : subscript data key ≠ Raise OutOfFuel.
Proof. unfold subscript. by repeat case_match. Qed.

Lemma recv_loop_bounded fuel : ∀ frames timestamps messages st,
  total_pending st < fuel →
  (recv_loop fuel frames timestamps messages st).1 ≠ Raise OutOfFuel.
Proof.
  induction fuel as [|fuel IH]; intros frames timestamps messages st Hlt; [lia|].
  rewrite recv_loop_unfold.
  destruct (receive_cases st) as
    [(e & -> & He)|[(h & port & Hl & ->)|[(h & port & j & q & Hl & ->)
                                         |(h & port & raw & q & Hl & ->)]]].
  1: simpl; congruence. 1: done. 2: done.
  pose proof (total_pending_with_inbox st h port _ q (proj2 Hl)) as Hp.
  simpl in Hp. set (st1 := with_inbox h port q st) in *.
  pose proof (subscript_bounded j) as Hsub.
  rewrite bind_run. unfold lift at 1.
  destruct (subscript j "t") as [t|e] eqn:Ht;
    [|simpl; intros [= ->]; by apply (Hsub "t")].
  destruct (json_eq_str t "e").
  - rewrite bind_run. unfold lift at 1.
    destruct (subscript j "message") as [m|e] eqn:Hm;
      [|simpl; intros [= ->]; by apply (Hsub "message")].
    rewrite bind_run.
    destruct (stop_stream_bounded st1) as (r & st2 & -> & Hr & Hle & _).
    destruct r as [[]|e]; [|simpl; congruence].
    apply IH. lia.
  - destruct (json_eq_str t "d"); [|apply IH; lia].
    rewrite bind_run. unfold lift at 1.
    destruct (subscript j "frame") as [f|e] eqn:Hf;
      [|simpl; intros [= ->]; by apply (Hsub "frame")].
    rewrite bind_run. unfold lift at 1.
    destruct (subscript j "timestamp") as [ts|e] eqn:Hts;
      [|simpl; intros [= ->]; by apply (Hsub "timestamp")].
    apply IH. lia.
Qed.

(** The bound [process_frames] gives its loop is never reached, nor is the
    one [stop_stream] gives its flush. *)
Lemma process_frames_fuel st : (process_frames st).1 ≠ Raise OutOfFuel.
Proof.
  unfold process_frames. rewrite bind_run.
  pose proof (recv_loop_bounded (S (total_pending st)) [] [] [] st) as H.
  destruct (recv_loop _ _ _ _ st) as [[[[frames timestamps] messages]|e] st'];
    simpl in *; [apply normalise_bounded|].
  intros [= ->]. by apply H; [lia|].
Qed.

Lemma stop_stream_fuel st : (stop_stream st).1 ≠ Raise OutOfFuel.
Proof. by destruct (stop_stream_bounded st) as (r & st' & -> & Hr & _). Qed.

End Fuel.

(** ** One drain *)

Section Drain.

Implicit Types (st : state) (h : nat) (msgs : list json) (pairs : list (json * json)).

(** With only data messages pending, [process_frames] empties the queue and
    hands the collected frames and timestamps to [normalise]. *)
Lemma process_frames_data st h port msgs pairs :
  Forall2 is_data msgs pairs →
  listening st h port (Wire <$> msgs) →
  process_frames st = (normalise pairs.*1 pairs.*2 [], with_inbox h port [] st).
Proof.
  intros Hd Hl. unfold process_frames. rewrite bind_run.
  pose proof (total_pending_listening _ _ _ _ Hl) as Hlen.
  rewrite length_fmap in Hlen.
  replace (S (total_pending st))
    with (length msgs + S (total_pending st - length msgs)) by lia.
  rewrite (recv_loop_data msgs pairs Hd [] _ _ _ _ st h port)
    by (by rewrite app_nil_r).
  rewrite recv_loop_unfold.
  rewrite (receive_empty _ h port) by (by eapply listening_with_inbox).
  done.
Qed.

(** A data run followed by one event message: [stop_stream] runs inside
    the loop, on the state in which the event has just been received; when
    it returns, the loop ends on the next round. *)
Lemma process_frames_data_then_event st h port msgs pairs ev text rest st' :
  Forall2 is_data msgs pairs →
  subscript ev "t" = Ok (JStr "e") →
  subscript ev "message" = Ok text →
  listening st h port ((Wire <$> msgs) ++ Wire ev :: rest) →
  stop_stream (with_inbox h port rest st) = (Ok (), st') →
  process_frames st = (normalise pairs.*1 pairs.*2 [text], st').
Proof.
  intros Hd Ht Hm Hl Hstop. unfold process_frames. rewrite bind_run.
  pose proof (total_pending_listening _ _ _ _ Hl) as Hlen.
  rewrite length_app, length_fmap in Hlen. simpl in Hlen.
  replace (S (total_pending st))
    with (length msgs + S (S (total_pending st - length msgs - 1))) by lia.
  rewrite (recv_loop_data msgs pairs Hd (Wire ev :: rest) _ _ _ _ st h port)
    by done.
  rewrite recv_loop_unfold.
  rewrite (receive_wire _ h port ev rest) by (by eapply listening_with_inbox).
  rewrite with_inbox_twice.
  rewrite bind_run. unfold lift at 1. rewrite Ht.
  change (json_eq_str (JStr "e") "e") with true. cbv iota.
  rewrite bind_run. unfold lift at 1. rewrite Hm.
  rewrite bind_run, Hstop, recv_loop_unfold.
  destruct (stop_stream_returns _ _ Hstop) as (_ & -> & _).
  done.
Qed.

End Drain.

(** * The claims *)

(** ** C1: the example scenario *)

(** C1 (as amended). With the data message
    [{t:"d", frame:[[1,2],[3,4]], timestamp:[[100],[101]]}] followed by the
    event message [{t:"e", message:"fault"}] pending, one [process_frames]
    on a session on which [stop_stream] completes returns the matrix
    [[1],[3]] of shape 2x1 (lead 0 of each channel row of the one stacked
    frame), the timestamp array [[100]] of shape 1x1 and the messages
    ["fault"]; [stop_stream] has run before it returns: the state it
    returns in is the one [stop_stream] left, with availability false and
    nothing pending. *)
Theorem process_frames_scenario st h port st' :
  listening st h port scenario_inbox →
  stop_stream (with_inbox h port [] st) = (Ok (), st') →
  process_frames st = (Ok scenario_returned, st') ∧
  attrs st' !! "device_available" = Some (VBool false) ∧
  listening st' h port [].
Proof.
  intros Hl Hstop.
  rewrite (process_frames_data_then_event st h port [scenario_data]
             [(JArr [JArr [JNum 1; JNum 2]; JArr [JNum 3; JNum 4]],
               JArr [JArr [JNum 100]; JArr [JNum 101]])]
             scenario_event (JStr "fault") [] st'); try done.
  - destruct (stop_stream_returns _ _ Hstop) as (Ha & _ & Hlis).
    split_and!; [done|by rewrite Ha, lookup_insert_eq|].
    apply (Hlis h port []). by eapply listening_with_inbox.
  - by repeat constructor.
Qed.

Lemma process_frames_scenario_witness :
  let st := deliver 0 scenario_inbox started_session in
  let st' := (stop_stream (with_inbox 0 (Some 49152%N) [] st)).2 in
  process_frames st = (Ok scenario_returned, st') ∧
  attrs st' !! "device_available" = Some (VBool false) ∧
  listening st' 0 (Some 49152%N) [].
Proof.
  apply (process_frames_scenario _ 0 (Some 49152%N)).
  - split; reflexivity.
  - vm_compute. reflexivity.
Defined.

(** C1 (as stated) fails: on a started session on which [stop_stream]
    completes, the scenario returns a 2x1 matrix and a 1x1 timestamp array,
    not the 2x2 matrix [[1,3],[2,4]] and the timestamps [100,101]; on the
    instance with only the attributes the class assigns it returns nothing,
    the [stop_stream] call inside the loop raises. *)
Lemma process_frames_scenario_counterexample :
  (process_frames (deliver 0 scenario_inbox started_session)).1 = Ok scenario_returned ∧
  scenario_returned ≠ scenario_expected ∧
  (process_frames (deliver 0 scenario_inbox built_session)).1
  = Raise (AttributeError "term_event").
Proof. split_and!; [vm_compute; reflexivity|discriminate|vm_compute; reflexivity]. Qed.

(** ** C2: shape normalisation *)

Section Matrix.

Implicit Types (st : state) (msgs : list json) (pairs : list (json * json)).

Lemma normalise_matrix frames timestamps messages A M B R :
  frames ≠ [] →
  np_array_float64 frames = Ok A → matrix_of A = Ok M →
  np_array timestamps = Ok B → first_column B = Ok R →
  normalise frames timestamps messages = Ok (PyArray M, PyArray R, messages).
Proof.
  intros Hne HA HM HB HR. unfold normalise, matrix_of in *.
  destruct frames as [|f frames]; [done|]. simpl length. cbv iota beta.
  change (0 <? S (length frames)) with true. cbv iota.
  rewrite HA. simpl.
  destruct (ndim A =? 3); [|destruct (ndim A =? 2)]; simplify_eq/=;
    rewrite ?HM, HB; simpl; by rewrite HR.
Qed.


Lemma transpose_10_entries A T C :
  shape_of (body A) = Some (shape A) → shape A = [T; C] →
  ∃ M, transpose_10 A = Ok M ∧ shape M = [C; T] ∧
       ∀ c t, c < C → t < T →
         ∃ z, at_path (body M) [c; t] = Some (Leaf z) ∧
              at_path (body A) [t; c] = Some (Leaf z).
Proof.
  intros Hwf Hs. unfold transpose_10. rewrite Hs.
  eexists. split_and!; [done..|]. intros c t Hc Ht. cbn [body].
  rewrite table_entry by done. rewrite Hs in Hwf.
  destruct (shape_of_at_path [(T, t); (C, c)] (body A)) as [z Hz];
    [done|repeat (apply Forall_cons_2; [simpl; lia|]); apply Forall_nil_2|].
  exists z. simpl in Hz. split; [|done]. unfold entry. simpl. by rewrite Hz.
Qed.

End Matrix.




(** ** C3: timestamps *)

Section Timestamps.

Implicit Types (st : state) (msgs : list json) (pairs : list (json * json)).


End Timestamps.




(** ** C4: stop_stream *)

(** Nothing in the class assigns [term_event]; on an instance without it
    the first line of [stop_stream] raises and nothing else happens. *)
Lemma stop_stream_without_term_event st :
  attrs st !! "term_event" = None →
  stop_stream st = (Raise (AttributeError "term_event"), st).
Proof. intros H. by rewrite stop_stream_unfold, H. Qed.

(** C4. [stop_stream] on the instance the constructor body builds, before
    any start, and on the same instance while it streams with a message
    pending: both calls raise [AttributeError] on [self.term_event] and
    change nothing. The termination event stays unset and the message
    stays pending. *)
Theorem stop_stream_raises :
  stop_stream built_session = (Raise (AttributeError "term_event"), built_session) ∧
  (let st := deliver 0 [Wire scenario_data] streaming_session in
   attrs st !! "terminate_event" = Some (VEvent 0) ∧
   stop_stream st = (Raise (AttributeError "term_event"), st) ∧
   events st = [false] ∧
   sockets st = [Socket (Some 49152%N) [Wire scenario_data]]).
Proof.
  split; [by apply stop_stream_without_term_event|].
  intros st. split_and!; [done|by apply stop_stream_without_term_event|done..].
Qed.

(** ** C5: payloads that do not decode *)

(** C5 (as amended). A pending payload that fails to decode, reached by
    the loop of [process_frames] after a run of data messages, makes the
    call raise the decode error: the frames collected so far are not
    returned, the undecodable message is consumed and the messages behind
    it stay pending. *)
Theorem process_frames_malformed st h port msgs pairs raw rest :
  Forall2 is_data msgs pairs →
  listening st h port ((Wire <$> msgs) ++ Malformed raw :: rest) →
  process_frames st = (Raise JSONDecodeError, with_inbox h port rest st).
Proof.
  intros Hd Hl. unfold process_frames. rewrite bind_run.
  pose proof (total_pending_listening _ _ _ _ Hl) as Hlen.
  rewrite length_app, length_fmap in Hlen. simpl in Hlen.
  replace (S (total_pending st))
    with (length msgs + S (total_pending st - length msgs)) by lia.
  rewrite (recv_loop_data msgs pairs Hd (Malformed raw :: rest) _ _ _ _ st h port)
    by done.
  rewrite recv_loop_unfold.
  rewrite (receive_malformed _ h port raw rest)
    by (by eapply listening_with_inbox).
  by rewrite with_inbox_twice.
Qed.

Lemma process_frames_malformed_witness :
  let st := deliver 0 [Wire scenario_data; Malformed "{"; Wire scenario_data]
                    built_session in
  process_frames st
  = (Raise JSONDecodeError, with_inbox 0 (Some 49152%N) [Wire scenario_data] st).
Proof.
  intros st.
  apply (process_frames_malformed st 0 (Some 49152%N) [scenario_data]
           [(JArr [JArr [JNum 1; JNum 2]; JArr [JNum 3; JNum 4]],
             JArr [JArr [JNum 100]; JArr [JNum 101]])] "{" [Wire scenario_data]).
  - repeat constructor.
  - split; reflexivity.
Defined.

(** C5 (as stated) fails: with an undecodable payload ahead of a data
    message, the drain raises to its caller and the data message behind it
    is not drained. *)
Lemma process_frames_malformed_counterexample :
  let r := process_frames
             (deliver 0 [Malformed "{"; Wire scenario_data] built_session) in
  r.1 = Raise JSONDecodeError ∧
  sockets r.2 = [Socket (Some 49152%N) [Wire scenario_data]].
Proof. split; vm_compute; reflexivity. Qed.

(** ** C6: start_stream *)

Lemma start_stream_args_unfold st :
  start_stream_args st =
  let st1 := with_attrs (<["terminate_event" := VEvent (length (events st))]>)
               (with_events (λ es, es ++ [false]) st) in
  match attrs st1 !! "port" with
  | None => (Raise (AttributeError "port"), st1)
  | Some port =>
      match py_str port with
      | Raise e => (Raise e, st1)
      | Ok text =>
          match attrs st1 !! "license_path" with
          | None => (Raise (AttributeError "license_path"), st1)
          | Some lp =>
              (Ok ([VStr (executable_path (os_sep (platform_system st))
                                   (module_dir st)); VStr text]
                   ++ if truthy lp then [VStr "--license"; lp] else []), st1)
          end
      end
  end.
Proof.
  unfold start_stream_args, mbind, M_bind, new_event, setattr,
    get_executable_path, getattr, lift. cbv zeta.
  cbn [attrs with_attrs with_events fst snd].
  destruct (_ !! "port") as [port|]; [|done].
  destruct (py_str port) as [text|e]; [|done].
  destruct (_ !! "license_path") as [lp|] eqn:Hlp; [|done].
  destruct (truthy lp); [|done].
  cbn [attrs with_attrs with_events fst snd] in *. by rewrite Hlp.
Qed.

Lemma start_stream_keeps st :
  children (start_stream st).2 = children st ∧
  attrs (start_stream st).2 !! "device_process" = attrs st !! "device_process".
Proof.
  unfold start_stream. rewrite bind_run, start_stream_args_unfold. cbv zeta.
  repeat case_match; simplify_eq/=; by rewrite lookup_insert_ne.
Qed.

(** C6. On every instance [start_stream] leaves the table of child
    processes and [self.device_process] as they were: no process is
    spawned. On the instance the constructor body builds it raises
    [AttributeError] on [self.license_path], an attribute the constructor
    never assigns. With that attribute bound it builds the command line the
    claim describes, drops it and returns. *)
Theorem start_stream_spawns_nothing :
  (∀ st, children (start_stream st).2 = children st ∧
         attrs (start_stream st).2 !! "device_process" = attrs st !! "device_process") ∧
  (start_stream built_session).1 = Raise (AttributeError "license_path") ∧
  (start_stream_args licensed_session).1
  = Ok [VStr "C:\PhysioLabXR\physiolabxr\interfaces\DeviceInterface\BAlertX24\x64\Debug\BAlertX24.exe";
        VStr "49152"; VStr "--license"; VStr "C:\licenses\balert.lic"] ∧
  (start_stream licensed_session).1 = Ok () ∧
  children streaming_session = [] ∧
  attrs streaming_session !! "device_process" = Some VNone.
Proof.
  split; [apply start_stream_keeps|].
  split_and!; vm_compute; reflexivity.
Qed.

(** ** C7: draining an idle session *)

(** C7 (as amended). [process_frames] checks no session state. Called on
    an idle session with data messages pending it drains them like any
    other call: its outcome is the normalised batch of those messages (or
    the error normalising them raises), the queue is left empty and the
    session is still idle. *)
Theorem process_frames_idle st h port msgs pairs :
  idle st →
  Forall2 is_data msgs pairs →
  listening st h port (Wire <$> msgs) →
  process_frames st = (normalise pairs.*1 pairs.*2 [], with_inbox h port [] st) ∧
  idle (with_inbox h port [] st).
Proof.
  intros Hidle Hd Hl. split; [by eapply process_frames_data|].
  exact Hidle.
Qed.

Lemma stopped_session_idle : idle stopped_session.
Proof.
  split; [reflexivity|].
  intros h. change (attrs stopped_session !! "terminate_event") with (Some (VEvent 0)).
  by intros [= <-].
Qed.

Lemma process_frames_idle_witness :
  let st := deliver 0 [Wire flat_data] stopped_session in
  process_frames st
  = (normalise [JArr [JNum 1; JNum 2]] [JArr [JNum 100]] [],
     with_inbox 0 (Some 49152%N) [] st) ∧
  idle (with_inbox 0 (Some 49152%N) [] st).
Proof.
  intros st.
  apply (process_frames_idle st 0 (Some 49152%N) [flat_data]
           [(JArr [JNum 1; JNum 2], JArr [JNum 100])]).
  - apply stopped_session_idle.
  - repeat constructor.
  - split; reflexivity.
Defined.

(** C7 (as stated) fails: on a session that has been stopped and not
    started again, with one data message pending, the drain raises nothing
    and returns that message's batch. *)
Lemma process_frames_idle_counterexample :
  let st := deliver 0 [Wire flat_data] stopped_session in
  idle st ∧
  (process_frames st).1
  = Ok (PyArray (NdArray [2; 1] (Node [Node [Leaf 1]; Node [Leaf 2]])),
        PyArray (NdArray [1] (Node [Leaf 100])), []).
Proof.
  split; [apply stopped_session_idle|vm_compute; reflexivity].
Qed.

(** ** The constructor: C8, C9, C10 *)

Section Construction.

Variable base : value → value → value → value → result (gmap string value).

Implicit Types (g : gmap string value) (a : init_args) (st : state).

Lemma module_globals_license_path : module_globals !! "_license_path" = None.
Proof. vm_compute. reflexivity. Qed.

(** Off Windows the constructor stops at the platform check. *)
Lemma construct_elsewhere g a st d :
  base (_device_name a) (_device_type a) (_device_nominal_sampling_rate a) (VBool false)
  = Ok d →
  platform_system st ≠ "Windows" →
  construct base g a st
  = (Raise (EnvironmentError
              "Platform Not Supported: BAlertX24 is only supported on Windows"),
     with_attrs (λ _, d ∪ ∅) st).
Proof.
  intros Hb Hsys. unfold construct, __init__.
  rewrite bind_run. unfold lift at 1. rewrite Hb.
  rewrite !bind_run. cbn [platform_system with_attrs].
  by destruct (String.eqb_spec (platform_system st) "Windows").
Qed.

(** On Windows, with [_license_path] unbound, it stops at line 36. *)
Lemma construct_unbound_name g a st d :
  base (_device_name a) (_device_type a) (_device_nominal_sampling_rate a) (VBool false)
  = Ok d →
  platform_system st = "Windows" →
  g !! "_license_path" = None →
  construct base g a st
  = (Raise (NameError "_license_path"),
     with_attrs (λ _, <["stream_type" := _device_type a]>
                        (<["stream_name" := _device_name a]> (d ∪ ∅))) st).
Proof.
  intros Hb Hsys Hg. unfold construct, __init__.
  rewrite bind_run. unfold lift at 1. rewrite Hb.
  rewrite !bind_run. cbn [platform_system with_attrs].
  destruct (String.eqb_spec (platform_system st) "Windows"); [|done].
  cbn [negb]. cbv iota.
  rewrite bind_run. unfold setattr at 1. rewrite bind_run. unfold setattr at 1.
  rewrite bind_run. unfold load_global at 1. by rewrite Hg.
Qed.

Lemma construct_base_raises g a st e :
  base (_device_name a) (_device_type a) (_device_nominal_sampling_rate a) (VBool false)
  = Raise e →
  construct base g a st = (Raise e, with_attrs (λ _, ∅) st).
Proof.
  intros Hb. unfold construct, __init__.
  rewrite bind_run. unfold lift at 1. by rewrite Hb.
Qed.

(** What a constructor call that returns has gone through. *)
Lemma construct_returns g a st st' :
  construct base g a st = (Ok (), st') →
  ∃ d lp p rest,
    base (_device_name a) (_device_type a) (_device_nominal_sampling_rate a) (VBool false)
    = Ok d ∧
    platform_system st = "Windows" ∧
    g !! "_license_path" = Some lp ∧
    free_ports st = p :: rest ∧
    attrs st' !! "ch_names" = Some (VList (map VStr ch_names_literal)) ∧
    attrs st' !! "stream_path" = Some lp ∧
    attrs st' !! "port" = Some (VStr (last_field ":" ("tcp://0.0.0.0:" +:+ pretty p))) ∧
    attrs st' !! "socket" = Some (VSocket (length (sockets st))) ∧
    sockets st' = sockets st ++ [Socket (Some p) []] ∧
    free_ports st' = rest.
Proof.
  unfold construct, __init__.
  rewrite bind_run. unfold lift at 1.
  destruct (base _ _ _ _) as [d|e]; [|done].
  rewrite !bind_run. cbn [platform_system with_attrs].
  destruct (String.eqb_spec (platform_system st) "Windows") as [Hsys|Hsys]; [|done].
  cbn [negb]. cbv iota.
  rewrite bind_run. unfold setattr at 1. rewrite bind_run. unfold setattr at 1.
  rewrite bind_run. unfold load_global at 1.
  destruct (g !! "_license_path") as [lp|] eqn:Hlp; [|done].
  rewrite bind_run. unfold setattr at 1. rewrite bind_run. unfold setattr at 1.
  rewrite bind_run. unfold zmq_Context at 1.
  rewrite bind_run. unfold setattr at 1.
  rewrite bind_run. unfold getattr at 1. cbn [attrs with_attrs with_contexts].
  rewrite lookup_insert_eq.
  rewrite bind_run. unfold zmq_socket at 1.
  rewrite bind_run. unfold setattr at 1.
  rewrite bind_run. unfold getattr at 1.
  cbn [attrs with_attrs with_contexts with_sockets].
  rewrite lookup_insert_eq.
  rewrite bind_run. unfold zmq_bind_any at 1.
  cbn [sockets free_ports attrs with_attrs with_contexts with_sockets].
  rewrite list_lookup_middle by done.
  destruct (free_ports st) as [|p rest] eqn:Hfree; [done|].
  rewrite bind_run. unfold getattr at 1.
  cbn [attrs with_attrs with_contexts with_sockets with_free_ports].
  rewrite lookup_insert_eq.
  rewrite bind_run. unfold zmq_last_endpoint at 1.
  cbn [sockets attrs with_attrs with_contexts with_sockets with_free_ports].
  rewrite list_lookup_insert_eq by (rewrite length_app; simpl; lia).
  rewrite !bind_run. unfold setattr.
  intros [= <-]. exists d, lp, p, rest.
  cbn [attrs sockets free_ports with_attrs with_contexts with_sockets with_free_ports].
  split_and!; try done; try (by simplify_map_eq).
  rewrite insert_app_r_alt by done. by rewrite Nat.sub_diag.
Qed.

(** Two states with the same components are the same state. *)
Lemma state_ext st1 st2 :
  attrs st1 = attrs st2 → platform_system st1 = platform_system st2 →
  module_dir st1 = module_dir st2 → free_ports st1 = free_ports st2 →
  contexts st1 = contexts st2 → sockets st1 = sockets st2 →
  events st1 = events st2 → children st1 = children st2 →
  st1 = st2.
Proof. destruct st1, st2. simpl. by intros -> -> -> -> -> -> -> ->. Qed.

(** The constructor up to its bind, on Windows with [_license_path] bound. *)
Lemma construct_to_bind g a st d lp :
  base (_device_name a) (_device_type a) (_device_nominal_sampling_rate a) (VBool false)
  = Ok d →
  platform_system st = "Windows" →
  g !! "_license_path" = Some lp →
  construct base g a st
  = match free_ports st with
    | [] =>
        (Raise ZMQError,
         State (<["socket" := VSocket (length (sockets st))]>
                  (<["context" := VContext (contexts st)]>
                     (<["ch_names" := VList (map VStr ch_names_literal)]>
                        (<["stream_path" := lp]>
                           (<["stream_type" := _device_type a]>
                              (<["stream_name" := _device_name a]> (d ∪ ∅)))))))
               (platform_system st) (module_dir st) [] (S (contexts st))
               (sockets st ++ [Socket None []]) (events st) (children st))
    | p :: rest =>
        (Ok (),
         State (built_attrs d a lp (contexts st) (length (sockets st))
                  (last_field ":" ("tcp://0.0.0.0:" +:+ pretty p)))
               (platform_system st) (module_dir st) rest (S (contexts st))
               (sockets st ++ [Socket (Some p) []]) (events st) (children st))
    end.
Proof.
  intros Hb Hsys Hlp. unfold construct, __init__.
  rewrite bind_run. unfold lift at 1. rewrite Hb.
  rewrite !bind_run. cbn [platform_system with_attrs].
  destruct (String.eqb_spec (platform_system st) "Windows"); [|done].
  cbn [negb]. cbv iota.
  rewrite bind_run. unfold setattr at 1. rewrite bind_run. unfold setattr at 1.
  rewrite bind_run. unfold load_global at 1. rewrite Hlp.
  rewrite bind_run. unfold setattr at 1. rewrite bind_run. unfold setattr at 1.
  rewrite bind_run. unfold zmq_Context at 1.
  rewrite bind_run. unfold setattr at 1.
  rewrite bind_run. unfold getattr at 1. cbn [attrs with_attrs with_contexts].
  rewrite lookup_insert_eq.
  rewrite bind_run. unfold zmq_socket at 1.
  rewrite bind_run. unfold setattr at 1.
  rewrite bind_run. unfold getattr at 1.
  cbn [attrs with_attrs with_contexts with_sockets].
  rewrite lookup_insert_eq.
  rewrite bind_run. unfold zmq_bind_any at 1.
  cbn [sockets free_ports attrs with_attrs with_contexts with_sockets].
  rewrite list_lookup_middle by done.
  destruct (free_ports st) as [|p rest] eqn:Hfree.
  { f_equal. apply state_ext;
      cbn [attrs platform_system module_dir free_ports contexts sockets events
           children with_attrs with_sockets with_contexts with_free_ports];
      done. }
  rewrite bind_run. unfold getattr at 1.
  cbn [attrs with_attrs with_contexts with_sockets with_free_ports].
  rewrite lookup_insert_eq.
  rewrite bind_run. unfold zmq_last_endpoint at 1.
  cbn [sockets attrs with_attrs with_contexts with_sockets with_free_ports].
  rewrite list_lookup_insert_eq by (rewrite length_app; simpl; lia).
  unfold mbind, M_bind, setattr. cbv beta iota. f_equal. apply state_ext;
    cbn [attrs platform_system module_dir free_ports contexts sockets events
         children with_attrs with_sockets with_contexts with_free_ports];
    try done.
  rewrite insert_app_r_alt by done. by rewrite Nat.sub_diag.
Qed.

(** C8. On a host whose [platform.system()] is not "Windows" the
    constructor, once the base-class constructor has returned, raises the
    platform error (an exception of the base class comes out instead when
    that one raises). Either way no ZMQ context or socket has been created
    and no port taken. *)
Theorem construct_unsupported_platform g a st :
  platform_system st ≠ "Windows" →
  let r := construct base g a st in
  contexts r.2 = contexts st ∧ sockets r.2 = sockets st ∧
  free_ports r.2 = free_ports st ∧
  match base (_device_name a) (_device_type a) (_device_nominal_sampling_rate a)
             (VBool false) with
  | Ok _ => r.1 = Raise (EnvironmentError
                           "Platform Not Supported: BAlertX24 is only supported on Windows")
  | Raise e => r.1 = Raise e
  end.
Proof.
  intros Hsys r. subst r.
  destruct (base _ _ _ _) as [d|e] eqn:Hb.
  - by rewrite (construct_elsewhere g a st d Hb Hsys).
  - by rewrite (construct_base_raises g a st e Hb).
Qed.

(** C9. With the names the module binds, no constructor call returns; on
    Windows, once the base-class constructor has returned, it raises
    [NameError] for [_license_path], before any ZMQ context or socket is
    created. *)
Theorem construct_never_returns a st :
  (construct base module_globals a st).1 ≠ Ok () ∧
  (platform_system st = "Windows" →
   ∀ d, base (_device_name a) (_device_type a) (_device_nominal_sampling_rate a)
             (VBool false) = Ok d →
        let r := construct base module_globals a st in
        r.1 = Raise (NameError "_license_path") ∧
        contexts r.2 = contexts st ∧ sockets r.2 = sockets st ∧
        free_ports r.2 = free_ports st).
Proof.
  split.
  - destruct (construct base module_globals a st) as [[[]|e] st'] eqn:Hc; [|done].
    destruct (construct_returns _ _ _ _ Hc) as (d & lp & p & rest & _ & _ & Hlp & _).
    by rewrite module_globals_license_path in Hlp.
  - intros Hsys d Hb r. subst r.
    by rewrite (construct_unbound_name _ a st d Hb Hsys module_globals_license_path).
Qed.

(** C10 (as amended). The outcome of the constructor does not depend on
    [_ch_names], and the list written out on line 37 has 24 entries. A
    call that gets to line 37 (the base-class constructor has returned,
    the host is Windows, [_license_path] is bound in the module
    namespace) leaves that list in [self.ch_names], whether or not a
    later line raises; so does every call that returns. A call stopped
    before line 37, at the platform check or at the unbound
    [_license_path], raises and leaves [ch_names] as the base-class
    constructor left it. *)
Theorem construct_ch_names g a v st :
  construct base g (set_ch_names v a) st = construct base g a st ∧
  length ch_names_literal = 24 ∧
  let r := construct base g a st in
  (∀ d lp,
     base (_device_name a) (_device_type a) (_device_nominal_sampling_rate a)
          (VBool false) = Ok d →
     platform_system st = "Windows" → g !! "_license_path" = Some lp →
     attrs r.2 !! "ch_names" = Some (VList (map VStr ch_names_literal))) ∧
  (r.1 = Ok () →
   attrs r.2 !! "ch_names" = Some (VList (map VStr ch_names_literal))) ∧
  (∀ d,
     base (_device_name a) (_device_type a) (_device_nominal_sampling_rate a)
          (VBool false) = Ok d →
     platform_system st ≠ "Windows" ∨ g !! "_license_path" = None →
     r.1 ≠ Ok () ∧ attrs r.2 !! "ch_names" = d !! "ch_names").
Proof.
  split; [done|]. split; [done|]. cbv zeta. split_and!.
  - intros d lp Hb Hsys Hlp. rewrite (construct_to_bind g a st d lp Hb Hsys Hlp).
    destruct (free_ports st); cbn [snd attrs]; [|unfold built_attrs];
      by simplify_map_eq.
  - destruct (construct base g a st) as [[[]|e] st'] eqn:Hc; [|done].
    intros _. simpl.
    by destruct (construct_returns _ _ _ _ Hc)
      as (d & lp & p & rest & _ & _ & _ & _ & Hch & _).
  - intros d Hb Hwhy.
    destruct (decide (platform_system st = "Windows")) as [Hsys|Hsys].
    + destruct Hwhy as [?|Hlp]; [done|].
      rewrite (construct_unbound_name g a st d Hb Hsys Hlp).
      split; [done|]. cbn [snd attrs with_attrs].
      rewrite !lookup_insert_ne by done. by rewrite (right_id_L ∅ (∪)).
    + rewrite (construct_elsewhere g a st d Hb Hsys).
      split; [done|]. cbn [snd attrs with_attrs]. by rewrite (right_id_L ∅ (∪)).
Qed.

End Construction.

Lemma construct_unsupported_platform_witness :
  let r := construct spec_DeviceInterface_init module_globals default_args (host "Linux") in
  contexts r.2 = 0 ∧ sockets r.2 = [] ∧ free_ports r.2 = [49152%N; 49153%N] ∧
  r.1 = Raise (EnvironmentError
                 "Platform Not Supported: BAlertX24 is only supported on Windows").
Proof.
  apply (construct_unsupported_platform spec_DeviceInterface_init module_globals
           default_args (host "Linux")).
  discriminate.
Defined.

Lemma construct_never_returns_witness :
  let r := construct spec_DeviceInterface_init module_globals default_args
                     (host "Windows") in
  r.1 = Raise (NameError "_license_path") ∧
  contexts r.2 = 0 ∧ sockets r.2 = [] ∧ free_ports r.2 = [49152%N; 49153%N].
Proof.
  refine (proj2 (construct_never_returns spec_DeviceInterface_init default_args
                   (host "Windows")) _ _ _); reflexivity.
Defined.

Lemma construct_ch_names_witness :
  let args := set_ch_names (VList [VStr "A"; VStr "B"]) default_args in
  attrs (construct spec_DeviceInterface_init patched_globals args
           (host "Windows")).2 !! "ch_names"
  = Some (VList (map VStr ch_names_literal)) ∧
  (construct spec_DeviceInterface_init module_globals args (host "Windows")).1
  ≠ Ok () ∧
  attrs (construct spec_DeviceInterface_init module_globals args
           (host "Windows")).2 !! "ch_names"
  = None.
Proof.
  intros args. split.
  - refine (proj1 (proj2 (proj2 (construct_ch_names spec_DeviceInterface_init
                                   patched_globals args VNone (host "Windows"))))
              _ VNone _ _ _); reflexivity.
  - exact (proj2 (proj2 (proj2 (proj2 (construct_ch_names spec_DeviceInterface_init
                                         module_globals args VNone (host "Windows")))))
             _ eq_refl (or_intror module_globals_license_path)).
Defined.

(** C10 (as stated) fails for the module as it is written: called with an
    explicit list of channel names, on Windows as elsewhere, the
    constructor raises before line 37 and no [ch_names] is set, neither
    the caller's list nor the 24 names of the literal. *)
Lemma construct_ch_names_counterexample :
  let args := set_ch_names (VList [VStr "A"; VStr "B"]) default_args in
  let w := construct spec_DeviceInterface_init module_globals args (host "Windows") in
  let l := construct spec_DeviceInterface_init module_globals args (host "Linux") in
  (w.1 = Raise (NameError "_license_path") ∧ attrs w.2 !! "ch_names" = None) ∧
  (l.1 = Raise (EnvironmentError
                  "Platform Not Supported: BAlertX24 is only supported on Windows") ∧
   attrs l.2 !! "ch_names" = None).
Proof. vm_compute. done. Qed.

(** * Further properties of the methods *)

(** ** Draining *)

Section MoreDrain.

Implicit Types (st : state) (h : nat) (msgs : list json) (pairs : list (json * json)).

(** Data messages and messages with a foreign tag, in any interleaving:
    one loop round each, the foreign ones leaving no trace. *)
Lemma recv_loop_collects msgs pairs :
  collects msgs pairs →
  ∀ rest fuel frames timestamps messages st h port,
    listening st h port ((Wire <$> msgs) ++ rest) →
    recv_loop (length msgs + fuel) frames timestamps messages st =
    recv_loop fuel (frames ++ pairs.*1) (timestamps ++ pairs.*2) messages
              (with_inbox h port rest st).
Proof.
  induction 1 as [|j [f ts] msgs pairs (Ht & Hf & Hts) _ IH
                  |j msgs pairs (t & Ht & He & Hd) _ IH];
    intros rest fuel frames timestamps messages st h port Hl.
  - simpl. rewrite !app_nil_r. destruct Hl as [_ Hs]. by rewrite with_inbox_same.
  - change (length (j :: msgs) + fuel) with (S (length msgs + fuel)).
    change ((Wire <$> j :: msgs) ++ rest) with (Wire j :: (Wire <$> msgs) ++ rest) in Hl.
    rewrite recv_loop_unfold, (receive_wire _ _ _ _ _ Hl).
    simpl in Hf, Hts.
    rewrite bind_run. unfold lift at 1. rewrite Ht.
    change (json_eq_str (JStr "d") "e") with false.
    change (json_eq_str (JStr "d") "d") with true. cbv iota.
    rewrite bind_run. unfold lift at 1. rewrite Hf.
    rewrite bind_run. unfold lift at 1. rewrite Hts.
    rewrite (IH rest fuel _ _ _ _ h port);
      [|by eapply listening_with_inbox].
    by rewrite with_inbox_twice, !fmap_cons, <- !app_assoc.
  - change (length (j :: msgs) + fuel) with (S (length msgs + fuel)).
    change ((Wire <$> j :: msgs) ++ rest) with (Wire j :: (Wire <$> msgs) ++ rest) in Hl.
    rewrite recv_loop_unfold, (receive_wire _ _ _ _ _ Hl).
    rewrite bind_run. unfold lift at 1. rewrite Ht, He, Hd.
    rewrite (IH rest fuel _ _ _ _ h port);
      [|by eapply listening_with_inbox].
    by rewrite with_inbox_twice.
Qed.

(** What a loop that returns has done: it has added at most one message
    text, and it has seen the queue empty. *)
Lemma recv_loop_returns fuel : ∀ frames timestamps messages st frames' timestamps' messages' st',
  recv_loop fuel frames timestamps messages st
  = (Ok (frames', timestamps', messages'), st') →
  (messages' = messages ∨ ∃ m, messages' = messages ++ [m]) ∧
  receive st' = (Ok None, st').
Proof.
  induction fuel as [|fuel IH];
    intros frames timestamps messages st frames' timestamps' messages' st'; [done|].
  rewrite recv_loop_unfold.
  destruct (receive_cases st) as
    [(e & -> & He)|[(h & port & Hl & Hr)|[(h & port & j & q & Hl & ->)
                                         |(h & port & raw & q & Hl & ->)]]];
    [done| |idtac|done].
  - rewrite Hr. intros [= <- <- <- <-]. split; [by left|done].
  - set (st1 := with_inbox h port q st).
    rewrite bind_run. unfold lift at 1.
    destruct (subscript j "t") as [t|e]; [|done].
    destruct (json_eq_str t "e").
    + rewrite bind_run. unfold lift at 1.
      destruct (subscript j "message") as [m|e]; [|done].
      rewrite bind_run.
      destruct (stop_stream st1) as [[[]|e] st2] eqn:Hstop; [|done].
      destruct (stop_stream_returns _ _ Hstop) as (_ & Hrecv & _).
      destruct fuel as [|fuel]; [done|].
      rewrite recv_loop_unfold, Hrecv. intros [= <- <- <- <-].
      split; [right; by exists m|done].
    + destruct (json_eq_str t "d"); [|apply IH].
      rewrite bind_run. unfold lift at 1.
      destruct (subscript j "frame") as [f|e]; [|done].
      rewrite bind_run. unfold lift at 1.
      destruct (subscript j "timestamp") as [ts|e]; [|done].
      apply IH.
Qed.

(** [normalise] hands the message texts through. *)
Lemma normalise_messages frames timestamps messages b :
  normalise frames timestamps messages = Ok b → b.2 = messages.
Proof.
  unfold normalise, mbind, result_bind, mret, result_ret.
  intros H. repeat case_match; by simplify_eq/=.
Qed.

End MoreDrain.

(** X1. With nothing pending, [process_frames] returns three empty lists and
    leaves the state as it found it. *)
Theorem process_frames_empty st h port :
  listening st h port [] →
  process_frames st = (Ok (PyList [], PyList [], []), st).
Proof.
  intros Hl. unfold process_frames. rewrite bind_run, recv_loop_unfold.
  by rewrite (receive_empty _ _ _ Hl).
Qed.

Lemma process_frames_empty_witness :
  process_frames built_session = (Ok (PyList [], PyList [], []), built_session).
Proof.
  apply (process_frames_empty built_session 0 (Some 49152%N)).
  split; reflexivity.
Defined.

(** X2. Messages whose tag is neither "e" nor "d" are received and dropped
    without a trace: with data messages and such messages pending in any
    interleaving, the outcome is the normalised batch of the data messages
    alone, in their order, and the queue is left empty. *)
Theorem process_frames_foreign_tags st h port msgs pairs :
  collects msgs pairs →
  listening st h port (Wire <$> msgs) →
  process_frames st = (normalise pairs.*1 pairs.*2 [], with_inbox h port [] st).
Proof.
  intros Hc Hl. unfold process_frames. rewrite bind_run.
  pose proof (total_pending_listening _ _ _ _ Hl) as Hlen.
  rewrite length_fmap in Hlen.
  replace (S (total_pending st))
    with (length msgs + S (total_pending st - length msgs)) by lia.
  rewrite (recv_loop_collects msgs pairs Hc [] _ _ _ _ st h port)
    by (by rewrite app_nil_r).
  rewrite recv_loop_unfold.
  by rewrite (receive_empty _ h port) by (by eapply listening_with_inbox).
Qed.

Lemma process_frames_foreign_tags_witness :
  let heartbeat := JObj [("t", JStr "h")] in
  let st := deliver 0 [Wire heartbeat; Wire flat_data; Wire heartbeat] built_session in
  process_frames st
  = (normalise [JArr [JNum 1; JNum 2]] [JArr [JNum 100]] [],
     with_inbox 0 (Some 49152%N) [] st).
Proof.
  intros heartbeat st.
  apply (process_frames_foreign_tags st 0 (Some 49152%N)
           [heartbeat; flat_data; heartbeat]
           [(JArr [JNum 1; JNum 2], JArr [JNum 100])]).
  - apply collects_other; [by exists (JStr "h")|].
    apply collects_data; [by repeat split|].
    apply collects_other; [by exists (JStr "h")|].
    apply collects_nil.
  - split; reflexivity.
Defined.

(** X3. A message the loop cannot take apart (no key "t", not an object, a
    data message without "frame" or "timestamp", an event message without
    "message") ends the call with that lookup's exception. The message
    itself is consumed, the frames collected before it are not returned,
    [stop_stream] is not run and the messages behind it stay pending. *)
Theorem process_frames_message_error st h port msgs pairs j e rest :
  collects msgs pairs →
  message_error j = Some e →
  listening st h port ((Wire <$> msgs) ++ Wire j :: rest) →
  process_frames st = (Raise e, with_inbox h port rest st).
Proof.
  intros Hc Hj Hl. unfold process_frames. rewrite bind_run.
  pose proof (total_pending_listening _ _ _ _ Hl) as Hlen.
  rewrite length_app, length_fmap in Hlen. simpl in Hlen.
  replace (S (total_pending st))
    with (length msgs + S (total_pending st - length msgs)) by lia.
  rewrite (recv_loop_collects msgs pairs Hc (Wire j :: rest) _ _ _ _ st h port)
    by done.
  rewrite recv_loop_unfold.
  rewrite (receive_wire _ h port j rest) by (by eapply listening_with_inbox).
  rewrite with_inbox_twice. unfold message_error in Hj.
  rewrite bind_run. unfold lift at 1.
  destruct (subscript j "t") as [t|e']; [|by simplify_eq].
  destruct (json_eq_str t "e").
  - rewrite bind_run. unfold lift at 1.
    by destruct (subscript j "message"); simplify_eq.
  - destruct (json_eq_str t "d"); [|done].
    rewrite bind_run. unfold lift at 1.
    destruct (subscript j "frame"); [|by simplify_eq].
    rewrite bind_run. unfold lift at 1.
    by destruct (subscript j "timestamp"); simplify_eq.
Qed.

Lemma process_frames_message_error_witness :
  let no_stamp := JObj [("t", JStr "d"); ("frame", JArr [JNum 1; JNum 2])] in
  let st := deliver 0 [Wire flat_data; Wire no_stamp; Wire flat_data] built_session in
  process_frames st
  = (Raise (KeyError "timestamp"), with_inbox 0 (Some 49152%N) [Wire flat_data] st).
Proof.
  intros no_stamp st.
  apply (process_frames_message_error st 0 (Some 49152%N) [flat_data]
           [(JArr [JNum 1; JNum 2], JArr [JNum 100])] no_stamp
           (KeyError "timestamp") [Wire flat_data]).
  - apply collects_data; [by repeat split|apply collects_nil].
  - reflexivity.
  - split; reflexivity.
Defined.

(** X4. A [process_frames] call that returns hands back at most one message
    text, however many event messages were pending, and leaves nothing
    pending on [self.socket]. *)
Theorem process_frames_returns st frames timestamps messages st' :
  process_frames st = (Ok (frames, timestamps, messages), st') →
  length messages ≤ 1 ∧ receive st' = (Ok None, st').
Proof.
  unfold process_frames. rewrite bind_run.
  destruct (recv_loop _ [] [] [] st) as [[[[fs tss] ms]|e] st1] eqn:Hloop; [|done].
  destruct (recv_loop_returns _ _ _ _ _ _ _ _ _ Hloop) as [Hms Hrecv].
  unfold lift. intros [= Hn <-]. split; [|done].
  apply normalise_messages in Hn. simpl in Hn. subst ms.
  destruct Hms as [->|[m ->]]; simpl; lia.
Qed.

Lemma process_frames_returns_witness :
  let st := deliver 0 [Wire scenario_event; Wire (event_message "again")]
                    started_session in
  length [JStr "fault"] ≤ 1 ∧
  receive (process_frames st).2 = (Ok None, (process_frames st).2).
Proof.
  intros st.
  apply (process_frames_returns st (PyList []) (PyList []) [JStr "fault"]).
  vm_compute. reflexivity.
Defined.

(** X5. Whatever is pending behind an event message never reaches the
    caller: when the [stop_stream] run on that event returns, the call
    returns the batch of the data messages ahead of the event with the
    event's text, and the queue is empty. *)
Theorem process_frames_event_cuts st h port msgs pairs ev text rest st' :
  collects msgs pairs →
  subscript ev "t" = Ok (JStr "e") →
  subscript ev "message" = Ok text →
  listening st h port ((Wire <$> msgs) ++ Wire ev :: rest) →
  stop_stream (with_inbox h port rest st) = (Ok (), st') →
  process_frames st = (normalise pairs.*1 pairs.*2 [text], st') ∧
  listening st' h port [].
Proof.
  intros Hc Ht Hm Hl Hstop.
  destruct (stop_stream_returns _ _ Hstop) as (_ & Hrecv & Hlis).
  split; [|by eapply Hlis, listening_with_inbox].
  unfold process_frames. rewrite bind_run.
  pose proof (total_pending_listening _ _ _ _ Hl) as Hlen.
  rewrite length_app, length_fmap in Hlen. simpl in Hlen.
  replace (S (total_pending st))
    with (length msgs + S (S (total_pending st - length msgs - 1))) by lia.
  rewrite (recv_loop_collects msgs pairs Hc (Wire ev :: rest) _ _ _ _ st h port)
    by done.
  rewrite recv_loop_unfold.
  rewrite (receive_wire _ h port ev rest) by (by eapply listening_with_inbox).
  rewrite with_inbox_twice.
  rewrite bind_run. unfold lift at 1. rewrite Ht.
  change (json_eq_str (JStr "e") "e") with true. cbv iota.
  rewrite bind_run. unfold lift at 1. rewrite Hm.
  by rewrite bind_run, Hstop, recv_loop_unfold, Hrecv.
Qed.

Lemma process_frames_event_cuts_witness :
  let st := deliver 0 [Wire flat_data; Wire scenario_event; Wire scenario_data]
                    started_session in
  let st' := (stop_stream (with_inbox 0 (Some 49152%N) [Wire scenario_data] st)).2 in
  process_frames st
  = (normalise [JArr [JNum 1; JNum 2]] [JArr [JNum 100]] [JStr "fault"], st') ∧
  listening st' 0 (Some 49152%N) [].
Proof.
  intros st st'.
  apply (process_frames_event_cuts st 0 (Some 49152%N) [flat_data]
           [(JArr [JNum 1; JNum 2], JArr [JNum 100])] scenario_event (JStr "fault")
           [Wire scenario_data]).
  - apply collects_data; [by repeat split|apply collects_nil].
  - reflexivity.
  - reflexivity.
  - split; reflexivity.
  - vm_compute. reflexivity.
Defined.

(** ** Stopping *)

Section MoreStop.

Implicit Types (st : state) (h : nat) (js : list json).

(** The flush loop receives every decodable message and stops at the first
    payload that does not decode. *)
Lemma flush_loop_wires js : ∀ rest fuel st h port,
  listening st h port ((Wire <$> js) ++ rest) →
  flush_loop (length js + fuel) st = flush_loop fuel (with_inbox h port rest st).
Proof.
  induction js as [|j js IH]; intros rest fuel st h port Hl.
  - simpl. destruct Hl as [_ Hs]. by rewrite with_inbox_same.
  - change (length (j :: js) + fuel) with (S (length js + fuel)).
    change ((Wire <$> j :: js) ++ rest) with (Wire j :: (Wire <$> js) ++ rest) in Hl.
    rewrite flush_loop_unfold, (receive_wire _ _ _ _ _ Hl).
    rewrite (IH rest fuel _ h port) by (by eapply listening_with_inbox).
    by rewrite with_inbox_twice.
Qed.

Lemma listening_with_attrs st h port q name v :
  name ≠ "socket" →
  listening st h port q →
  listening (with_attrs (<[name := v]>) st) h port q.
Proof. intros Hne [Ha Hs]. split; [|done]. simpl. by rewrite lookup_insert_ne. Qed.

Lemma listening_with_events st h port q f :
  listening st h port q → listening (with_events f st) h port q.
Proof. by intros [Ha Hs]. Qed.

Lemma listening_cleared st h port q :
  listening st h port q →
  listening (with_attrs (<["device_available" := VBool false]>) st) h port q.
Proof. by apply listening_with_attrs. Qed.

Lemma listening_signalled st h port q f :
  listening st h port q →
  listening (with_attrs (<["device_available" := VBool false]>)
               (with_events f st)) h port q.
Proof. intros H. by apply listening_cleared, listening_with_events. Qed.

Lemma with_events_same st e :
  events st !! e = Some true → with_events (<[e := true]>) st = st.
Proof.
  intros H. destruct st. unfold with_events. simpl in *. by rewrite list_insert_id.
Qed.

Lemma with_attrs_same st name v :
  attrs st !! name = Some v → with_attrs (<[name := v]>) st = st.
Proof.
  intros H. destruct st. unfold with_attrs. simpl in *. by rewrite insert_id.
Qed.

End MoreStop.

(** X6. On an instance where [self.term_event] resolves to [te] (and, when
    [te] is true, [self.terminate_event] is an Event), with only decodable
    messages pending, [stop_stream] returns: the event is set exactly when
    [te] is true, availability is false, and the queue is empty. Nothing
    else changes. *)
Theorem stop_stream_completes st h port js te e :
  attrs st !! "term_event" = Some te →
  (truthy te = true →
   attrs st !! "terminate_event" = Some (VEvent e) ∧ e < length (events st)) →
  listening st h port (Wire <$> js) →
  stop_stream st
  = (Ok (),
     with_inbox h port []
       (with_attrs (<["device_available" := VBool false]>)
          (if truthy te then with_events (<[e := true]>) st else st))).
Proof.
  intros Hte Hev Hl. rewrite stop_stream_unfold, Hte.
  pose proof (total_pending_listening _ _ _ _ Hl) as Hlen.
  rewrite length_fmap in Hlen.
  replace (S (total_pending st))
    with (length js + S (total_pending st - length js)) by lia.
  destruct (truthy te).
  - destruct (Hev eq_refl) as [-> He]. simpl.
    destruct (lookup_lt_is_Some_2 _ _ He) as [b ->].
    rewrite (flush_loop_wires js [] _ _ h port);
      [|rewrite app_nil_r; by apply listening_signalled].
    rewrite flush_loop_unfold, (receive_empty _ h port); [done|].
    by eapply listening_with_inbox, listening_signalled.
  - rewrite (flush_loop_wires js [] _ _ h port);
      [|rewrite app_nil_r; by apply listening_cleared].
    rewrite flush_loop_unfold, (receive_empty _ h port); [done|].
    by eapply listening_with_inbox, listening_cleared.
Qed.

Lemma stop_stream_completes_witness :
  let st := deliver 0 [Wire flat_data; Wire scenario_data] started_session in
  stop_stream st
  = (Ok (),
     with_inbox 0 (Some 49152%N) []
       (with_attrs (<["device_available" := VBool false]>)
          (with_events (<[0 := true]>) st))).
Proof.
  intros st.
  apply (stop_stream_completes st 0 (Some 49152%N) [flat_data; scenario_data]
           (VBool true) 0).
  - reflexivity.
  - intros _. split; [reflexivity|]. vm_compute. lia.
  - split; reflexivity.
Defined.

(** X7. [stop_stream] is idempotent where it returns: a second call right
    after a call that returned returns as well and changes nothing. *)
Theorem stop_stream_twice st st' :
  stop_stream st = (Ok (), st') → stop_stream st' = (Ok (), st').
Proof.
  intros Hstop.
  destruct (stop_stream_returns _ _ Hstop) as (Ha & Hrecv & _).
  destruct (stop_stream_cases st)
    as [(e & He & _)|(st1 & Hrun & Hs & _ & Ha1 & te & Hte & Hev)];
    [congruence|].
  rewrite Hstop in Hrun. symmetry in Hrun.
  assert (total_pending st1 = total_pending st) as Hp
    by (unfold total_pending; by rewrite Hs).
  destruct (flush_loop_bounded (S (total_pending st)) st1)
    as (r & st2 & Hrun' & _ & Hat & Hevs & _); [lia|].
  rewrite Hrun in Hrun'. injection Hrun' as <- <-.
  assert (with_attrs (<["device_available" := VBool false]>) st' = st') as Hsame.
  { apply with_attrs_same. by rewrite Ha, lookup_insert_eq. }
  rewrite stop_stream_unfold.
  rewrite Ha, lookup_insert_ne, Hte by done.
  destruct (truthy te) eqn:Htruthy.
  - destruct Hev as (h & Hh & Hset).
    rewrite lookup_insert_ne, Hh by done. unfold event_set.
    assert (events st' !! h = Some true) as Hh'.
    { rewrite Hevs, Hset. apply list_lookup_insert_eq.
      rewrite stop_stream_unfold, Hte, Htruthy, Hh in Hstop. simpl in Hstop.
      destruct (events st !! h) eqn:E; [by eapply lookup_lt_Some|done]. }
    rewrite Hh', (with_events_same _ _ Hh'), Hsame.
    by rewrite flush_loop_unfold, Hrecv.
  - by rewrite Hsame, flush_loop_unfold, Hrecv.
Qed.

Lemma stop_stream_twice_witness :
  let st := deliver 0 [Wire flat_data] started_session in
  stop_stream (stop_stream st).2 = (Ok (), (stop_stream st).2).
Proof.
  intros st. apply (stop_stream_twice st). vm_compute. reflexivity.
Defined.

(** X8. A payload that does not decode stops the flush of [stop_stream]:
    the call raises the decode error after it has set the event and
    cleared availability, and the messages behind that payload stay
    pending for the next session. *)
Theorem stop_stream_malformed st h port js raw rest te e :
  attrs st !! "term_event" = Some te →
  (truthy te = true →
   attrs st !! "terminate_event" = Some (VEvent e) ∧ e < length (events st)) →
  listening st h port ((Wire <$> js) ++ Malformed raw :: rest) →
  stop_stream st
  = (Raise JSONDecodeError,
     with_inbox h port rest
       (with_attrs (<["device_available" := VBool false]>)
          (if truthy te then with_events (<[e := true]>) st else st))).
Proof.
  intros Hte Hev Hl. rewrite stop_stream_unfold, Hte.
  pose proof (total_pending_listening _ _ _ _ Hl) as Hlen.
  rewrite length_app, length_fmap in Hlen. simpl in Hlen.
  replace (S (total_pending st))
    with (length js + S (total_pending st - length js)) by lia.
  destruct (truthy te).
  - destruct (Hev eq_refl) as [-> He]. simpl.
    destruct (lookup_lt_is_Some_2 _ _ He) as [b ->].
    rewrite (flush_loop_wires js (Malformed raw :: rest) _ _ h port);
      [|by apply listening_signalled].
    rewrite flush_loop_unfold, (receive_malformed _ h port raw rest);
      [by rewrite with_inbox_twice|].
    by eapply listening_with_inbox, listening_signalled.
  - rewrite (flush_loop_wires js (Malformed raw :: rest) _ _ h port);
      [|by apply listening_cleared].
    rewrite flush_loop_unfold, (receive_malformed _ h port raw rest);
      [by rewrite with_inbox_twice|].
    by eapply listening_with_inbox, listening_cleared.
Qed.

Lemma stop_stream_malformed_witness :
  let st := deliver 0 [Wire flat_data; Malformed "{"; Wire scenario_data]
                    started_session in
  stop_stream st
  = (Raise JSONDecodeError,
     with_inbox 0 (Some 49152%N) [Wire scenario_data]
       (with_attrs (<["device_available" := VBool false]>)
          (with_events (<[0 := true]>) st))).
Proof.
  intros st.
  apply (stop_stream_malformed st 0 (Some 49152%N) [flat_data] "{"
           [Wire scenario_data] (VBool true) 0).
  - reflexivity.
  - intros _. split; [reflexivity|]. vm_compute. lia.
  - split; reflexivity.
Defined.

(** ** Availability *)

Section MoreAvailability.

Implicit Types (st : state).

Lemma stop_stream_unavailable st :
  attrs st !! "device_available" = Some (VBool false) →
  attrs (stop_stream st).2 !! "device_available" = Some (VBool false).
Proof.
  intros Hst.
  destruct (stop_stream_cases st) as [(e & -> & _)|(st1 & -> & Hs & _ & Ha & _)];
    [done|].
  assert (total_pending st1 = total_pending st) as Hp
    by (unfold total_pending; by rewrite Hs).
  destruct (flush_loop_bounded (S (total_pending st)) st1)
    as (r & st2 & -> & _ & Hat & _); [lia|].
  simpl. by rewrite Hat, Ha, lookup_insert_eq.
Qed.

Lemma recv_loop_unavailable fuel : ∀ frames timestamps messages st,
  attrs st !! "device_available" = Some (VBool false) →
  attrs (recv_loop fuel frames timestamps messages st).2 !! "device_available"
  = Some (VBool false).
Proof.
  induction fuel as [|fuel IH]; intros frames timestamps messages st Hst; [done|].
  rewrite recv_loop_unfold.
  destruct (receive_cases st) as
    [(e & -> & He)|[(h & port & Hl & ->)|[(h & port & j & q & Hl & ->)
                                         |(h & port & raw & q & Hl & ->)]]];
    [done|done| |done].
  set (st1 := with_inbox h port q st).
  assert (attrs st1 !! "device_available" = Some (VBool false)) as Hst1 by done.
  rewrite bind_run. unfold lift at 1.
  destruct (subscript j "t") as [t|e]; [|done].
  destruct (json_eq_str t "e").
  - rewrite bind_run. unfold lift at 1.
    destruct (subscript j "message") as [m|e]; [|done].
    rewrite bind_run.
    pose proof (stop_stream_unavailable st1 Hst1) as Hstop.
    destruct (stop_stream st1) as [[[]|e] st2]; [by apply IH|done].
  - destruct (json_eq_str t "d"); [|by apply IH].
    rewrite bind_run. unfold lift at 1.
    destruct (subscript j "frame") as [f|e]; [|done].
    rewrite bind_run. unfold lift at 1.
    destruct (subscript j "timestamp") as [ts|e]; [|done].
    by apply IH.
Qed.

(** The state [start_stream] leaves, whichever way it ends. *)
Lemma start_stream_state st :
  (start_stream st).2
  = with_attrs (<["terminate_event" := VEvent (length (events st))]>)
      (with_events (λ es, es ++ [false]) st).
Proof.
  unfold start_stream. rewrite bind_run, start_stream_args_unfold. cbv zeta.
  by repeat case_match; simplify_eq/=.
Qed.

End MoreAvailability.

(** X9. No method claims availability: on an instance whose
    [device_available] is false (as the constructor leaves it) it is still
    false after [start_stream], after [stop_stream] and after
    [process_frames], whatever is pending and however the call ends, so
    [is_device_available] keeps answering [False]. *)
Theorem device_available_stays_false st :
  attrs st !! "device_available" = Some (VBool false) →
  (is_device_available (start_stream st).2).1 = Ok (VBool false) ∧
  (is_device_available (stop_stream st).2).1 = Ok (VBool false) ∧
  (is_device_available (process_frames st).2).1 = Ok (VBool false).
Proof.
  intros Hst.
  assert (∀ st', attrs st' !! "device_available" = Some (VBool false) →
                 (is_device_available st').1 = Ok (VBool false)) as Hget.
  { intros st' H. unfold is_device_available, getattr. by rewrite H. }
  split_and!; apply Hget.
  - rewrite start_stream_state. simpl. by rewrite lookup_insert_ne.
  - by apply stop_stream_unavailable.
  - unfold process_frames. rewrite bind_run.
    pose proof (recv_loop_unavailable (S (total_pending st)) [] [] [] st Hst) as H.
    by destruct (recv_loop _ _ _ _ st) as [[[[fs tss] ms]|e] st1].
Qed.

Lemma device_available_stays_false_witness :
  let st := deliver 0 [Wire flat_data; Wire scenario_event] started_session in
  (is_device_available (start_stream st).2).1 = Ok (VBool false) ∧
  (is_device_available (stop_stream st).2).1 = Ok (VBool false) ∧
  (is_device_available (process_frames st).2).1 = Ok (VBool false).
Proof.
  intros st. apply (device_available_stays_false st). reflexivity.
Defined.

(** ** Starting *)

(** [stop_stream] sets no event but the one [self.terminate_event] names. *)
Lemma stop_stream_other_events st h b :
  events st !! h = Some b →
  attrs st !! "terminate_event" ≠ Some (VEvent h) →
  events (stop_stream st).2 !! h = Some b.
Proof.
  intros Hh Hne.
  destruct (stop_stream_cases st)
    as [(e & -> & _)|(st1 & -> & Hs & _ & _ & te & _ & Hev)]; [done|].
  assert (total_pending st1 = total_pending st) as Hp
    by (unfold total_pending; by rewrite Hs).
  destruct (flush_loop_bounded (S (total_pending st)) st1)
    as (r & st2 & -> & _ & _ & Hevs & _); [lia|].
  simpl. rewrite Hevs.
  destruct (truthy te); [|by rewrite Hev].
  destruct Hev as (h' & Hh' & ->).
  rewrite list_lookup_insert_ne; [done|]. intros ->. by apply Hne.
Qed.

(** X10. Every [start_stream] call stores a termination signal that did
    not exist before and is not set, also when it raises. Nothing guards a
    second call: after two calls the instance names the second signal
    only, and the first one is still unset after a following
    [stop_stream], however that call ends. *)
Theorem start_stream_twice st :
  let h := length (events st) in
  let st1 := (start_stream st).2 in
  let st2 := (start_stream st1).2 in
  events st !! h = None ∧
  attrs st1 !! "terminate_event" = Some (VEvent h) ∧ events st1 !! h = Some false ∧
  attrs st2 !! "terminate_event" = Some (VEvent (S h)) ∧
  events st2 !! S h = Some false ∧
  events (stop_stream st2).2 !! h = Some false.
Proof.
  intros h st1 st2. subst h st1 st2. rewrite !start_stream_state.
  cbn [attrs events with_attrs with_events]. rewrite length_app. simpl.
  replace (length (events st) + 1) with (S (length (events st))) by lia.
  split_and!.
  - by apply lookup_ge_None_2.
  - by rewrite lookup_insert_eq.
  - by rewrite list_lookup_middle.
  - by rewrite lookup_insert_eq.
  - rewrite (list_lookup_middle (events st ++ [false]) [] false); [done|].
    rewrite length_app. simpl. lia.
  - apply stop_stream_other_events; cbn [attrs events with_attrs with_events].
    + rewrite <- app_assoc. cbn [app]. by rewrite list_lookup_middle.
    + rewrite lookup_insert_eq. intros [= H]. lia.
Qed.

(** X11. [start_stream] raises [AttributeError] on an instance without a
    [port], and returns only on an instance that has both a [port] and a
    [license_path]. On an instance whose [port] is a text, a number, a
    boolean or [None] it raises [AttributeError] when [license_path] is
    missing and returns otherwise; the command line it puts together is
    then (the module directory not being a bare drive) the executable
    path, joined with the separator of the host, and the port text,
    followed by "--license" and the license path exactly when the license
    path is true (not [None], not empty). *)
Theorem start_stream_command_line st :
  (attrs st !! "port" = None →
   (start_stream st).1 = Raise (AttributeError "port")) ∧
  ((start_stream st).1 = Ok () →
   ∃ port lp, attrs st !! "port" = Some port ∧
              attrs st !! "license_path" = Some lp) ∧
  ∀ port text,
    attrs st !! "port" = Some port → py_str port = Ok text →
    (attrs st !! "license_path" = None →
     (start_stream st).1 = Raise (AttributeError "license_path")) ∧
    ∀ lp, attrs st !! "license_path" = Some lp →
      (start_stream st).1 = Ok () ∧
      (no_bare_drive st →
       (start_stream_args st).1
       = Ok ([VStr (executable_path (os_sep (platform_system st)) (module_dir st));
              VStr text]
             ++ if truthy lp then [VStr "--license"; lp] else [])).
Proof.
  unfold start_stream. rewrite bind_run, start_stream_args_unfold. cbv zeta.
  cbn [attrs with_attrs with_events].
  rewrite !lookup_insert_ne by done.
  split_and!.
  - by intros ->.
  - destruct (attrs st !! "port") as [port|]; [|done].
    destruct (py_str port) as [text|e]; [|done].
    destruct (attrs st !! "license_path") as [lp|]; [|done].
    intros _. by exists port, lp.
  - intros port text -> ->. split; [by intros ->|]. by intros lp ->.
Qed.

Lemma start_stream_command_line_witness :
  ((start_stream licensed_session).1 = Ok () ∧
   (start_stream_args licensed_session).1
   = Ok [VStr "C:\PhysioLabXR\physiolabxr\interfaces\DeviceInterface\BAlertX24\x64\Debug\BAlertX24.exe";
         VStr "49152"; VStr "--license"; VStr "C:\licenses\balert.lic"]) ∧
  ((start_stream posix_session).1 = Ok () ∧
   (start_stream_args posix_session).1
   = Ok [VStr "/opt/PhysioLabXR/physiolabxr/interfaces/DeviceInterface/BAlertX24/x64/Debug/BAlertX24.exe";
         VStr "5555"]).
Proof.
  split.
  - destruct (proj2 (proj2 (proj2 (start_stream_command_line licensed_session))
                       (VStr "49152") "49152" eq_refl eq_refl)
                (VStr "C:\licenses\balert.lic") eq_refl) as [Hret Hargs].
    split; [exact Hret|]. apply Hargs. intros _. discriminate.
  - destruct (proj2 (proj2 (proj2 (start_stream_command_line posix_session))
                       (VInt 5555) "5555" eq_refl eq_refl)
                VNone eq_refl) as [Hret Hargs].
    split; [exact Hret|]. apply Hargs. intros ?. discriminate.
Defined.

(** ** Text: paths and endpoints *)

Section MoreText.

Implicit Types (s t : string) (c sep : ascii).

Lemma string_app_assoc s t u : (s +:+ t) +:+ u = s +:+ (t +:+ u).
Proof.
  induction s as [|c s IH]; [done|].
  change (String c ((s +:+ t) +:+ u) = String c (s +:+ (t +:+ u))).
  by rewrite IH.
Qed.

Lemma list_ascii_app s t :
  list_ascii_of_string (s +:+ t) = list_ascii_of_string s ++ list_ascii_of_string t.
Proof.
  induction s as [|c s IH]; [done|].
  change (c :: list_ascii_of_string (s +:+ t)
          = c :: list_ascii_of_string s ++ list_ascii_of_string t).
  by rewrite IH.
Qed.

(** Whether a text ends with a separator is decided by its last piece. *)
Lemma ends_with_sep_app sep s c t :
  ends_with_sep sep (s +:+ String c t) = ends_with_sep sep (String c t).
Proof.
  unfold ends_with_sep. rewrite list_ascii_app. simpl list_ascii_of_string.
  by rewrite last_app_cons, !last_cons.
Qed.

(** The fields of a text that holds a separator: those before it, at
    least one, then the fields of what follows it. *)
Lemma split_on_app sep s t :
  ∃ l, l ≠ [] ∧ split_on sep (s +:+ String sep t) = l ++ split_on sep t.
Proof.
  induction s as [|c s (l & Hl & IH)]; simpl.
  - exists [EmptyString]. split; [done|]. by rewrite bool_decide_eq_true_2.
  - rewrite IH. case_bool_decide.
    + by exists (EmptyString :: l).
    + destruct l as [|f l]; [done|]. by exists (String c f :: l).
Qed.

Lemma split_on_absent sep t : occurs sep t = false → split_on sep t = [t].
Proof.
  induction t as [|c t IH]; simpl; [done|].
  intros [Hc Ht]%orb_false_iff. apply bool_decide_eq_false in Hc.
  rewrite bool_decide_eq_false_2 by done. by rewrite (IH Ht).
Qed.

(** The last field of a text is what stands behind its last separator. *)
Lemma last_field_app sep s t :
  occurs sep t = false → last_field sep (s +:+ String sep t) = t.
Proof.
  intros Ht. unfold last_field.
  destruct (split_on_app sep s t) as (l & _ & ->).
  by rewrite (split_on_absent _ _ Ht), last_snoc.
Qed.

Lemma pretty_N_go_colon (x : N) : ∀ s,
  occurs ":" s = false → occurs ":" (pretty_N_go x s) = false.
Proof.
  induction (N.lt_wf_0 x) as [x _ IH]; intros s Hs.
  assert (x = 0 ∨ 0 < x)%N as [->|Hx] by lia.
  - by rewrite pretty_N_go_0.
  - rewrite pretty_N_go_step by done. apply IH; [by apply N.div_lt|].
    simpl. rewrite Hs, orb_false_r. apply bool_decide_eq_false.
    unfold pretty_N_char. by repeat case_match.
Qed.

Lemma pretty_N_colon (p : N) : occurs ":" (pretty p) = false.
Proof.
  unfold pretty, pretty_N. case_decide; [done|]. by apply pretty_N_go_colon.
Qed.

End MoreText.

(** The three joins of [executable_path], written out. *)
Lemma executable_path_text sep base_dir :
  sep ≠ "4"%char → sep ≠ "g"%char →
  executable_path sep base_dir
  = base_dir +:+ ((if ends_with_sep sep base_dir then "" else String sep "")
                  +:+ ("x64" +:+ (String sep "Debug" +:+ String sep "BAlertX24.exe"))).
Proof.
  intros H4 Hg. unfold executable_path.
  assert (∀ s, path_join sep (s +:+ "x64") "Debug"
               = s +:+ ("x64" +:+ String sep "Debug")) as H1.
  { intros s. unfold path_join.
    rewrite (ends_with_sep_app sep s "x" "64").
    unfold ends_with_sep. cbn [list_ascii_of_string last].
    rewrite bool_decide_eq_false_2 by (intros ?; by apply H4).
    rewrite bool_decide_eq_false_2 by done. cbn [orb].
    by rewrite !string_app_assoc. }
  assert (∀ s, path_join sep (s +:+ ("x64" +:+ String sep "Debug")) "BAlertX24.exe"
               = s +:+ ("x64" +:+ (String sep "Debug" +:+ String sep "BAlertX24.exe")))
    as H2.
  { intros s. unfold path_join.
    change ("x64" +:+ String sep "Debug") with (String "x" ("64" +:+ String sep "Debug")).
    rewrite (ends_with_sep_app sep s "x" ("64" +:+ String sep "Debug")).
    unfold ends_with_sep.
    change (last (list_ascii_of_string (String "x" ("64" +:+ String sep "Debug"))))
      with (Some "g"%char).
    cbv beta iota.
    rewrite bool_decide_eq_false_2 by (intros ?; by apply Hg).
    rewrite bool_decide_eq_false_2 by done. cbn [orb].
    by rewrite !string_app_assoc. }
  unfold path_join at 3.
  destruct (ends_with_sep sep base_dir).
  - by rewrite H1, H2.
  - rewrite <- (string_app_assoc base_dir (String sep "") "x64").
    rewrite H1, H2. by rewrite string_app_assoc.
Qed.

(** X12. [get_executable_path] changes nothing and answers the directory
    of the module followed by [x64], [Debug] and [BAlertX24.exe], joined
    by the separator of the host: a backslash on Windows and a slash
    elsewhere. One separator stands between the directory and [x64], none
    being added when the directory already ends with one (a root). So for
    a directory that does not end with a separator the answer ends with
    [\x64\Debug\BAlertX24.exe] on Windows and with
    [/x64/Debug/BAlertX24.exe] on any other host. The module directory is
    taken not to be a bare drive. *)
Theorem get_executable_path_text st :
  no_bare_drive st →
  let sep := os_sep (platform_system st) in
  get_executable_path st
  = (Ok (module_dir st
         +:+ ((if ends_with_sep sep (module_dir st) then "" else String sep "")
              +:+ ("x64" +:+ (String sep "Debug" +:+ String sep "BAlertX24.exe")))),
     st) ∧
  (ends_with_sep sep (module_dir st) = false →
   (platform_system st = "Windows" →
    (get_executable_path st).1 = Ok (module_dir st +:+ "\x64\Debug\BAlertX24.exe")) ∧
   (platform_system st ≠ "Windows" →
    (get_executable_path st).1 = Ok (module_dir st +:+ "/x64/Debug/BAlertX24.exe"))).
Proof.
  intros _ sep.
  assert (get_executable_path st
          = (Ok (module_dir st
                 +:+ ((if ends_with_sep sep (module_dir st) then "" else String sep "")
                      +:+ ("x64" +:+ (String sep "Debug"
                                      +:+ String sep "BAlertX24.exe")))), st)) as H.
  { unfold get_executable_path. f_equal. f_equal.
    apply executable_path_text; subst sep; unfold os_sep; by case_match. }
  split; [done|].
  intros Hend. rewrite H, Hend. subst sep. unfold os_sep.
  split; intros Hsys.
  - by rewrite Hsys.
  - by destruct (String.eqb_spec (platform_system st) "Windows").
Qed.

Lemma get_executable_path_text_witness :
  (get_executable_path (host "Windows")).1
  = Ok "C:\PhysioLabXR\physiolabxr\interfaces\DeviceInterface\BAlertX24\x64\Debug\BAlertX24.exe" ∧
  (get_executable_path posix_session).1
  = Ok "/opt/PhysioLabXR/physiolabxr/interfaces/DeviceInterface/BAlertX24/x64/Debug/BAlertX24.exe".
Proof.
  split.
  - refine (proj1 (proj2 (get_executable_path_text (host "Windows") _) _) _);
      [intros _; discriminate|reflexivity|reflexivity].
  - refine (proj2 (proj2 (get_executable_path_text posix_session _) _) _);
      [intros ?; discriminate|reflexivity|discriminate].
Defined.

(** ** Construction *)

(** X13. Where the constructor can get through (on Windows, the base-class
    constructor returning, [_license_path] bound in the module namespace,
    the OS having a port to give) it returns a session that is idle and
    listening: one new context, one new socket bound to the port the OS
    gave with nothing pending, [port] the decimal text of that port cut out
    of the endpoint, [stream_path] the value of [_license_path], no
    process, no termination signal, not available. Events and child
    processes are untouched. *)
Theorem construct_builds base g a st d lp p rest :
  base (_device_name a) (_device_type a) (_device_nominal_sampling_rate a) (VBool false)
  = Ok d →
  platform_system st = "Windows" →
  g !! "_license_path" = Some lp →
  free_ports st = p :: rest →
  let r := construct base g a st in
  r.1 = Ok () ∧
  attrs r.2 = built_attrs d a lp (contexts st) (length (sockets st)) (pretty p) ∧
  sockets r.2 = sockets st ++ [Socket (Some p) []] ∧
  listening r.2 (length (sockets st)) (Some p) [] ∧
  free_ports r.2 = rest ∧ contexts r.2 = S (contexts st) ∧
  events r.2 = events st ∧ children r.2 = children st ∧
  idle r.2.
Proof.
  intros Hb Hsys Hlp Hfree r. subst r.
  rewrite (construct_to_bind base g a st d lp Hb Hsys Hlp), Hfree.
  change ("tcp://0.0.0.0:" +:+ pretty p)
    with ("tcp://0.0.0.0" +:+ String ":" (pretty p)).
  rewrite (last_field_app ":" "tcp://0.0.0.0" (pretty p) (pretty_N_colon p)).
  cbn [fst snd attrs sockets free_ports contexts events children].
  split_and!; try done.
  - split; cbn [attrs sockets]; [by unfold built_attrs; simplify_map_eq|].
    by apply list_lookup_middle.
  - split; cbn [attrs events]; unfold built_attrs; [by simplify_map_eq|].
    intros h. by simplify_map_eq.
Qed.

Lemma construct_builds_witness :
  let r := construct spec_DeviceInterface_init patched_globals default_args
                     (host "Windows") in
  r.1 = Ok () ∧
  attrs r.2 = built_attrs (list_to_map [("_device_name", VStr "BAlertX24");
                                        ("_device_type", VStr "eeg");
                                        ("device_nominal_sampling_rate", VInt 256);
                                        ("is_supports_device_availability", VBool false)])
                default_args VNone 0 0 (pretty 49152%N) ∧
  sockets r.2 = [] ++ [Socket (Some 49152%N) []] ∧
  listening r.2 0 (Some 49152%N) [] ∧
  free_ports r.2 = [49153%N] ∧ contexts r.2 = 1 ∧
  events r.2 = [] ∧ children r.2 = [] ∧
  idle r.2.
Proof.
  apply (construct_builds spec_DeviceInterface_init patched_globals default_args
           (host "Windows")); reflexivity.
Defined.

(** X14. When the OS has no port to give, the constructor raises the bind
    error with the context and the socket already created: the failed call
    leaves one more context and one more, unbound, socket behind. *)
Theorem construct_no_port base g a st d lp :
  base (_device_name a) (_device_type a) (_device_nominal_sampling_rate a) (VBool false)
  = Ok d →
  platform_system st = "Windows" →
  g !! "_license_path" = Some lp →
  free_ports st = [] →
  let r := construct base g a st in
  r.1 = Raise ZMQError ∧
  contexts r.2 = S (contexts st) ∧
  sockets r.2 = sockets st ++ [Socket None []].
Proof.
  intros Hb Hsys Hlp Hfree r. subst r.
  by rewrite (construct_to_bind base g a st d lp Hb Hsys Hlp), Hfree.
Qed.

Lemma construct_no_port_witness :
  let st := with_free_ports [] (host "Windows") in
  let r := construct spec_DeviceInterface_init patched_globals default_args st in
  r.1 = Raise ZMQError ∧ contexts r.2 = 1 ∧ sockets r.2 = [] ++ [Socket None []].
Proof.
  intros st.
  apply (construct_no_port spec_DeviceInterface_init patched_globals default_args st
           (list_to_map [("_device_name", VStr "BAlertX24");
                         ("_device_type", VStr "eeg");
                         ("device_nominal_sampling_rate", VInt 256);
                         ("is_supports_device_availability", VBool false)])
           VNone); reflexivity.
Defined.

(** X15. The [license_path] argument never reaches the instance: the
    constructor's outcome is the same whatever is passed for it, and on
    every instance a constructor call returns (in any namespace, over any
    base class that does not itself store the attributes) [start_stream]
    raises [AttributeError] on [license_path] and [stop_stream] raises
    [AttributeError] on [term_event], changing nothing. *)
Theorem construct_then_methods base g a st st' d :
  construct base g a st = (Ok (), st') →
  base (_device_name a) (_device_type a) (_device_nominal_sampling_rate a) (VBool false)
  = Ok d →
  d !! "license_path" = None → d !! "term_event" = None →
  (∀ v, construct base g
          (InitArgs (_device_name a) (_device_type a)
                    (_device_nominal_sampling_rate a) (_ch_names a) v) st
        = construct base g a st) ∧
  (start_stream st').1 = Raise (AttributeError "license_path") ∧
  stop_stream st' = (Raise (AttributeError "term_event"), st').
Proof.
  intros Hc Hb Hlic Hterm.
  destruct (construct_returns base g a st st' Hc)
    as (d' & lp & p & rest & Hb' & Hsys & Hlp & Hfree & _).
  rewrite Hb in Hb'. injection Hb' as <-.
  rewrite (construct_to_bind base g a st d lp Hb Hsys Hlp), Hfree in Hc.
  injection Hc as <-.
  split_and!.
  - done.
  - unfold start_stream. rewrite bind_run, start_stream_args_unfold. cbv zeta.
    cbn [attrs with_attrs with_events]. unfold built_attrs.
    rewrite lookup_insert_ne by done.
    rewrite (lookup_insert_ne _ "device_available" "port") by done.
    rewrite (lookup_insert_ne _ "terminate_event" "port") by done.
    rewrite (lookup_insert_ne _ "device_process" "port") by done.
    rewrite lookup_insert_eq. cbn [py_str].
    rewrite lookup_insert_ne by done.
    assert (∀ m : gmap string value, (d ∪ m) !! "license_path" = m !! "license_path") as Hu.
    { intros m. by rewrite lookup_union_r. }
    by simplify_map_eq.
  - rewrite stop_stream_unfold. cbn [attrs]. unfold built_attrs.
    assert (∀ m : gmap string value, (d ∪ m) !! "term_event" = m !! "term_event") as Hu.
    { intros m. by rewrite lookup_union_r. }
    by simplify_map_eq.
Qed.

Lemma construct_then_methods_witness :
  (start_stream built_session).1 = Raise (AttributeError "license_path") ∧
  stop_stream built_session = (Raise (AttributeError "term_event"), built_session).
Proof.
  refine (proj2 (construct_then_methods spec_DeviceInterface_init patched_globals
                   default_args (host "Windows") built_session
                   (list_to_map [("_device_name", VStr "BAlertX24");
                                 ("_device_type", VStr "eeg");
                                 ("device_nominal_sampling_rate", VInt 256);
                                 ("is_supports_device_availability", VBool false)])
                   _ _ _ _)).
  - vm_compute. reflexivity.
  - reflexivity.
  - reflexivity.
  - reflexivity.
Defined.

(** ** The automatic stop and the script *)

(** X16. On an instance without a [term_event] attribute the stop that an
    event message triggers cannot run: [process_frames] raises
    [AttributeError] as soon as it meets the event message. The data
    messages received before it in the same call are lost with the call,
    and the messages behind the event stay pending, unflushed. *)
Theorem process_frames_event_raises st h port msgs pairs ev text rest :
  attrs st !! "term_event" = None →
  collects msgs pairs →
  subscript ev "t" = Ok (JStr "e") →
  subscript ev "message" = Ok text →
  listening st h port ((Wire <$> msgs) ++ Wire ev :: rest) →
  process_frames st
  = (Raise (AttributeError "term_event"), with_inbox h port rest st).
Proof.
  intros Hte Hc Ht Hm Hl. unfold process_frames. rewrite bind_run.
  pose proof (total_pending_listening _ _ _ _ Hl) as Hlen.
  rewrite length_app, length_fmap in Hlen. simpl in Hlen.
  replace (S (total_pending st))
    with (length msgs + S (total_pending st - length msgs)) by lia.
  rewrite (recv_loop_collects msgs pairs Hc (Wire ev :: rest) _ _ _ _ st h port)
    by done.
  rewrite recv_loop_unfold.
  rewrite (receive_wire _ h port ev rest) by (by eapply listening_with_inbox).
  rewrite with_inbox_twice.
  rewrite bind_run. unfold lift at 1. rewrite Ht.
  change (json_eq_str (JStr "e") "e") with true. cbv iota.
  rewrite bind_run. unfold lift at 1. rewrite Hm.
  rewrite bind_run, stop_stream_unfold. cbn [attrs with_inbox with_sockets].
  by rewrite Hte.
Qed.

Lemma process_frames_event_raises_witness :
  let st := deliver 0 [Wire flat_data; Wire scenario_event; Wire flat_data]
                    built_session in
  process_frames st
  = (Raise (AttributeError "term_event"),
     with_inbox 0 (Some 49152%N) [Wire flat_data] st).
Proof.
  intros st.
  apply (process_frames_event_raises st 0 (Some 49152%N) [flat_data]
           [(JArr [JNum 1; JNum 2], JArr [JNum 100])] scenario_event (JStr "fault")
           [Wire flat_data]).
  - reflexivity.
  - apply collects_data; [by repeat split|apply collects_nil].
  - reflexivity.
  - reflexivity.
  - split; reflexivity.
Defined.

(** X17. Run as a script, the module ends on its first statement, the
    construction of the interface, on every host and over every base
    class: with the exception of the base-class constructor if that one
    raises, else with the platform error off Windows and with [NameError]
    for [_license_path] on Windows. No stream is started, nothing is
    polled, the [finally] block with its [stop_stream] is never entered,
    and no context, socket, port or event has been allocated. *)
Theorem main_fails base st :
  let r := main base st in
  r.1 = match base (VStr "BAlertX24") (VStr "eeg") (VInt 256) (VBool false) with
        | Raise e => Raise e
        | Ok _ =>
            if String.eqb (platform_system st) "Windows"
            then Raise (NameError "_license_path")
            else Raise (EnvironmentError
                          "Platform Not Supported: BAlertX24 is only supported on Windows")
        end ∧
  contexts r.2 = contexts st ∧ sockets r.2 = sockets st ∧
  free_ports r.2 = free_ports st ∧ events r.2 = events st.
Proof.
  intros r. subst r. unfold main. rewrite bind_run.
  destruct (base (VStr "BAlertX24") (VStr "eeg") (VInt 256) (VBool false))
    as [d|e] eqn:Hb.
  - destruct (String.eqb_spec (platform_system st) "Windows") as [Hsys|Hsys].
    + by rewrite (construct_unbound_name base module_globals default_args st d Hb
                    Hsys module_globals_license_path).
    + by rewrite (construct_elsewhere base module_globals default_args st d Hb Hsys).
  - by rewrite (construct_base_raises base module_globals default_args st e Hb).
Qed.

(** X18. Had the script reached its loop on an instance the constructor
    body builds, with the driver silent: every poll returns empty and
    changes nothing, and the [stop_stream] of the [finally] block then
    raises [AttributeError], which is how the script would end after any
    number of rounds. *)
Theorem script_loop_ends_raising n st h port :
  listening st h port [] →
  attrs st !! "term_event" = None →
  poll_times n st = (Ok (), st) ∧
  try_finally (poll_times n) stop_stream st
  = (Raise (AttributeError "term_event"), st).
Proof.
  intros Hl Hte.
  assert (poll_times n st = (Ok (), st)) as Hpoll.
  { induction n as [|n IH]; [done|]. simpl. rewrite bind_run.
    rewrite (process_frames_data st h port [] [] (Forall2_nil_2 _ _ _) Hl).
    destruct Hl as [_ Hs]. by rewrite (with_inbox_same _ _ _ _ Hs). }
  split; [done|]. unfold try_finally. rewrite Hpoll.
  by rewrite stop_stream_unfold, Hte.
Qed.

Lemma script_loop_ends_raising_witness :
  poll_times 3 built_session = (Ok (), built_session) ∧
  try_finally (poll_times 3) stop_stream built_session
  = (Raise (AttributeError "term_event"), built_session).
Proof.
  apply (script_loop_ends_raising 3 built_session 0 (Some 49152%N)).
  - split; reflexivity.
  - reflexivity.
Defined.

(** ** Batches of the driver's usual messages *)

Section MoreBatches.

Implicit Types (rows : list (list Z * Z)) (ns : list nest) (s : list nat).

Lemma nest_of_json_flat (xs : list Z) :
  nest_of_json (JArr (JNum <$> xs)) = Some (Node (Leaf <$> xs)).
Proof.
  simpl. assert (mapM nest_of_json (JNum <$> xs) = Some (Leaf <$> xs)) as ->; [|done].
  apply mapM_Some. induction xs as [|x xs IH]; by constructor.
Qed.

(** Items of one shape stack. *)
Lemma shape_of_stack ns s :
  ns ≠ [] → Forall (λ n, shape_of n = Some s) ns →
  shape_of (Node ns) = Some (length ns :: s).
Proof.
  intros Hne Hall. destruct ns as [|n ns]; [done|].
  apply Forall_cons in Hall as [Hn Hns]. simpl. rewrite Hn.
  assert (forallb (λ r', match shape_of r' with
                         | Some s' => shape_eqb s s'
                         | None => false
                         end) ns = true) as ->; [|done].
  apply forallb_forall. intros n' Hin%list_elem_of_In.
  rewrite Forall_forall in Hns. rewrite (Hns _ Hin).
  by apply bool_decide_eq_true.
Qed.

(** An item whose shape differs from the first item's makes the nesting
    ragged. *)
Lemma shape_of_ragged n ns s :
  shape_of n = Some s →
  Exists (λ n', shape_of n' ≠ Some s) ns →
  shape_of (Node (n :: ns)) = None.
Proof.
  intros Hn Hex. simpl. rewrite Hn.
  assert (forallb (λ r', match shape_of r' with
                         | Some s' => shape_eqb s s'
                         | None => false
                         end) ns = false) as ->; [|done].
  apply not_true_is_false. intros Hall. rewrite forallb_forall in Hall.
  apply Exists_exists in Hex as (n' & Hin & Hne).
  specialize (Hall n' (proj1 (list_elem_of_In _ _) Hin)).
  destruct (shape_of n') as [s'|]; [|done].
  apply bool_decide_eq_true in Hall. by subst.
Qed.

Lemma shape_of_flat (xs : list Z) : shape_of (Node (Leaf <$> xs)) = Some [length xs].
Proof.
  destruct xs as [|x xs]; [done|].
  rewrite (shape_of_stack (Leaf <$> x :: xs) []); [by rewrite length_fmap|done|].
  apply Forall_fmap. by apply Forall_true.
Qed.

Lemma flat_messages_data rows :
  Forall2 is_data (flat_message <$> rows)
          ((λ r, (JArr (JNum <$> r.1), JArr [JNum r.2])) <$> rows).
Proof.
  apply Forall2_fmap. induction rows as [|r rows IH]; constructor; [|done].
  by repeat split.
Qed.

Lemma flat_frames_nests rows :
  mapM nest_of_json ((λ r, (JArr (JNum <$> r.1), JArr [JNum r.2])) <$> rows).*1
  = Some ((λ r, Node (Leaf <$> r.1)) <$> rows).
Proof.
  apply mapM_Some. rewrite <- list_fmap_compose. apply Forall2_fmap.
  induction rows as [|r rows IH]; constructor; [|done].
  apply nest_of_json_flat.
Qed.

Lemma flat_stamps_nests rows :
  mapM nest_of_json ((λ r, (JArr (JNum <$> r.1), JArr [JNum r.2])) <$> rows).*2
  = Some ((λ r, Node [Leaf r.2]) <$> rows).
Proof.
  apply mapM_Some. rewrite <- list_fmap_compose. apply Forall2_fmap.
  induction rows as [|r rows IH]; by constructor.
Qed.

(** What stacking the frames and the stamps of such messages gives. *)
Lemma flat_frames_stack rows C :
  rows ≠ [] → Forall (λ r, length r.1 = C) rows →
  stack ((λ r, (JArr (JNum <$> r.1), JArr [JNum r.2])) <$> rows).*1
  = Ok (NdArray [length rows; C] (Node ((λ r, Node (Leaf <$> r.1)) <$> rows))).
Proof.
  intros Hne Hlen. unfold stack. rewrite flat_frames_nests.
  rewrite (shape_of_stack _ [C]); [by rewrite length_fmap|by destruct rows|].
  apply Forall_fmap. eapply Forall_impl; [exact Hlen|].
  intros r Hr. unfold compose. cbv beta in Hr |- *.
  by rewrite shape_of_flat, Hr.
Qed.

Lemma flat_stamps_stack rows :
  rows ≠ [] →
  stack ((λ r, (JArr (JNum <$> r.1), JArr [JNum r.2])) <$> rows).*2
  = Ok (NdArray [length rows; 1] (Node ((λ r, Node [Leaf r.2]) <$> rows))).
Proof.
  intros Hne. unfold stack. rewrite flat_stamps_nests.
  rewrite (shape_of_stack _ [1]); [by rewrite length_fmap|by destruct rows|].
  apply Forall_fmap. by apply Forall_true.
Qed.

(** Converting a row of readings converts each reading. *)
Lemma cast_nest_Node ns : cast_nest (Node ns) = Node <$> mapM cast_nest ns.
Proof. done. Qed.

Lemma cast_nest_readings (xs : list Z) :
  Forall (λ x, is_Some (float64_of_int x)) xs →
  cast_nest (Node (Leaf <$> xs))
  = Some (Node (Leaf <$> ((λ x, default x (float64_of_int x)) <$> xs))).
Proof.
  intros H. rewrite cast_nest_Node.
  assert (mapM cast_nest (Leaf <$> xs)
          = Some (Leaf <$> ((λ x, default x (float64_of_int x)) <$> xs))) as ->;
    [|done].
  apply mapM_Some. rewrite <- list_fmap_compose. apply Forall2_fmap.
  induction H as [|x xs [y Hy] _ IH]; constructor; [|done].
  unfold compose. cbn [cast_nest]. by rewrite Hy.
Qed.

Lemma cast_nest_rows rows :
  Forall (λ r, Forall (λ x, is_Some (float64_of_int x)) r.1) rows →
  cast_nest (Node ((λ r, Node (Leaf <$> r.1)) <$> rows))
  = Some (Node ((λ r, Node (Leaf <$> ((λ x, default x (float64_of_int x)) <$> r.1)))
                  <$> rows)).
Proof.
  intros H. rewrite cast_nest_Node.
  assert (mapM cast_nest ((λ r, Node (Leaf <$> r.1)) <$> rows)
          = Some ((λ r, Node (Leaf <$> ((λ x, default x (float64_of_int x)) <$> r.1)))
                    <$> rows)) as ->; [|done].
  apply mapM_Some. apply Forall2_fmap.
  induction H as [|r rows Hr _ IH]; constructor; [|done].
  by apply cast_nest_readings.
Qed.

(** One reading beyond the float64 range makes the conversion fail. *)
Lemma cast_nest_rows_overflow rows :
  Exists (λ r, Exists (λ x, float64_of_int x = None) r.1) rows →
  cast_nest (Node ((λ r, Node (Leaf <$> r.1)) <$> rows)) = None.
Proof.
  intros Hex. rewrite cast_nest_Node.
  destruct (mapM cast_nest _) as [l|] eqn:Hl; [exfalso|done].
  apply mk_is_Some, mapM_is_Some in Hl. rewrite Forall_fmap in Hl.
  apply Exists_exists in Hex as (r & Hin & Hr).
  rewrite Forall_forall in Hl. specialize (Hl r Hin).
  unfold compose in Hl. rewrite cast_nest_Node in Hl.
  apply fmap_is_Some, mapM_is_Some in Hl. rewrite Forall_fmap in Hl.
  apply Exists_exists in Hr as (x & Hx & Hnone).
  rewrite Forall_forall in Hl. specialize (Hl x Hx).
  unfold compose in Hl. cbn [cast_nest] in Hl. rewrite Hnone in Hl.
  by destruct Hl.
Qed.

Lemma int64_leaves_stamps rows :
  Forall (λ r, in_int64 r.2 = true) rows →
  int64_leaves (Node ((λ r, Node [Leaf r.2]) <$> rows)) = true.
Proof.
  intros H. cbn [int64_leaves]. apply forallb_forall.
  intros n (r & -> & Hin)%list_elem_of_In%list_elem_of_fmap.
  rewrite Forall_forall in H. cbn [int64_leaves forallb].
  by rewrite (H r Hin).
Qed.

End MoreBatches.

(** X19. The driver's usual traffic: N >= 1 data messages, each with one
    reading per channel (C readings, whole numbers) and a one-element
    timestamp. When one of the readings is beyond the float64 range,
    [process_frames] raises [OverflowError]. Otherwise, the stamps being
    within int64, it returns a matrix of shape (C, N) that holds at (c, k)
    reading c of the k-th message converted to float64 (the reading
    itself up to 2^53 in absolute value, the nearest float64 beyond), the
    timestamps as the plain 1-D array of the N stamps in arrival order,
    and no message text. *)
Theorem process_frames_flat st h port rows C :
  rows ≠ [] →
  Forall (λ r, length r.1 = C) rows →
  listening st h port (Wire <$> (flat_message <$> rows)) →
  (Exists (λ r, Exists (λ x, float64_of_int x = None) r.1) rows →
   (process_frames st).1 = Raise OverflowError) ∧
  (Forall (λ r, Forall (λ x, is_Some (float64_of_int x)) r.1) rows →
   Forall (λ r, in_int64 r.2 = true) rows →
   ∃ M, (process_frames st).1
        = Ok (PyArray M, PyArray (NdArray [length rows] (Node (Leaf <$> rows.*2))), []) ∧
        shape M = [C; length rows] ∧
        ∀ k readings stamp c x,
          rows !! k = Some (readings, stamp) → readings !! c = Some x →
          ∃ y, float64_of_int x = Some y ∧
               at_path (body M) [c; k] = Some (Leaf y) ∧
               ((Z.abs x ≤ 2 ^ 53)%Z → y = x)).
Proof.
  intros Hne Hlen Hl.
  rewrite (process_frames_data st h port _ _ (flat_messages_data rows) Hl).
  cbn [fst].
  set (pairs := (λ r, (JArr (JNum <$> r.1), JArr [JNum r.2])) <$> rows).
  assert (pairs.*1 ≠ []) as Hne' by (subst pairs; by destruct rows).
  split.
  { intros Hex.
    assert (np_array_float64 pairs.*1 = Raise OverflowError) as HA.
    { unfold np_array_float64. subst pairs.
      rewrite (flat_frames_stack rows C Hne Hlen). cbn [body].
      by rewrite (cast_nest_rows_overflow rows Hex). }
    unfold normalise. rewrite HA. clear HA. by destruct (pairs.*1). }
  intros Hfit Hstamps.
  set (round := λ x : Z, default x (float64_of_int x)).
  set (A := NdArray [length rows; C]
              (Node ((λ r, Node (Leaf <$> (round <$> r.1))) <$> rows))).
  set (B := NdArray [length rows; 1] (Node ((λ r, Node [Leaf r.2]) <$> rows))).
  assert (np_array_float64 pairs.*1 = Ok A) as HA.
  { unfold np_array_float64. subst pairs.
    rewrite (flat_frames_stack rows C Hne Hlen). cbn [body shape].
    by rewrite (cast_nest_rows rows Hfit). }
  assert (np_array pairs.*2 = Ok B) as HB.
  { unfold np_array. subst pairs.
    rewrite (flat_stamps_stack rows Hne). cbn [body].
    by rewrite (int64_leaves_stamps rows Hstamps). }
  assert (first_column B = Ok (NdArray [length rows] (Node (Leaf <$> rows.*2)))) as HR.
  { unfold first_column. simpl. by rewrite <- !list_fmap_compose. }
  destruct (transpose_10_entries A (length rows) C) as (M & HM & HsM & Hent).
  { by apply (np_array_float64_shaped pairs.*1). }
  { done. }
  exists M. split_and!; [|done|].
  - apply (normalise_matrix _ _ _ A M B); [done|done| |done|done].
    unfold matrix_of. by subst A.
  - intros k readings stamp c x Hk Hc.
    assert (c < C) as HcC.
    { rewrite Forall_forall in Hlen.
      rewrite <- (Hlen _ (list_elem_of_lookup_2 _ _ _ Hk)). simpl.
      by eapply lookup_lt_Some. }
    assert (is_Some (float64_of_int x)) as [y Hy].
    { rewrite Forall_forall in Hfit.
      specialize (Hfit _ (list_elem_of_lookup_2 _ _ _ Hk)).
      rewrite Forall_forall in Hfit.
      by apply Hfit, (list_elem_of_lookup_2 _ c). }
    exists y. split; [done|].
    destruct (Hent c k HcC (lookup_lt_Some _ _ _ Hk)) as (z & -> & Hz).
    subst A. cbn [body at_path nd_index] in Hz.
    rewrite list_lookup_fmap, Hk in Hz. cbn in Hz.
    rewrite !list_lookup_fmap, Hc in Hz. cbn in Hz.
    subst round. cbv beta in Hz. rewrite Hy in Hz. cbn in Hz. simplify_eq.
    split; [done|]. intros Hx. rewrite (float64_of_int_exact x Hx) in Hy.
    by simplify_eq.
Qed.

Lemma process_frames_flat_witness :
  let rows := [([1; 2]%Z, 100%Z); ([9007199254740993; 4]%Z, 101%Z);
               ([5; 6]%Z, 102%Z)] in
  let st := deliver 0 (Wire <$> (flat_message <$> rows)) built_session in
  ((process_frames (deliver 0 [Wire huge_data; Wire flat_data] built_session)).1
   = Raise OverflowError) ∧
  ∃ M, (process_frames st).1
       = Ok (PyArray M, PyArray (NdArray [3] (Node [Leaf 100; Leaf 101; Leaf 102])), []) ∧
       shape M = [2; 3] ∧
       ∀ k readings stamp c x,
         rows !! k = Some (readings, stamp) → readings !! c = Some x →
         ∃ y, float64_of_int x = Some y ∧
              at_path (body M) [c; k] = Some (Leaf y) ∧
              ((Z.abs x ≤ 2 ^ 53)%Z → y = x).
Proof.
  intros rows st. split.
  - refine (proj1 (process_frames_flat
                     (deliver 0 [Wire huge_data; Wire flat_data] built_session)
                     0 (Some 49152%N) [([10 ^ 400; 2]%Z, 100%Z); ([1; 2]%Z, 100%Z)] 2
                     _ _ _) _).
    + discriminate.
    + repeat constructor.
    + split; reflexivity.
    + apply Exists_cons_hd, Exists_cons_hd. vm_compute. reflexivity.
  - refine (proj2 (process_frames_flat st 0 (Some 49152%N) rows 2 _ _ _) _ _).
    + discriminate.
    + repeat constructor.
    + split; reflexivity.
    + repeat (apply Forall_cons_2; [|]); try apply Forall_nil_2;
        eexists; vm_compute; reflexivity.
    + repeat (apply Forall_cons_2; [reflexivity|]). apply Forall_nil_2.
Defined.

(** X20. Data messages of one cycle whose frames differ in their number of
    readings cannot be stacked: [process_frames] raises [ValueError]. All
    the messages have been consumed by then, so the whole cycle is lost. *)
Theorem process_frames_ragged st h port r rows :
  Exists (λ r', length r'.1 ≠ length r.1) rows →
  listening st h port (Wire <$> (flat_message <$> r :: rows)) →
  process_frames st = (Raise ValueError, with_inbox h port [] st).
Proof.
  intros Hex Hl.
  rewrite (process_frames_data st h port _ _ (flat_messages_data (r :: rows)) Hl).
  f_equal.
  set (pairs := (λ r0 : list Z * Z, (JArr (JNum <$> r0.1), JArr [JNum r0.2]))
                  <$> r :: rows).
  assert (stack pairs.*1 = Raise ValueError) as HA.
  { unfold stack. subst pairs. rewrite flat_frames_nests, fmap_cons.
    rewrite (shape_of_ragged _ _ [length r.1]); [done|apply shape_of_flat|].
    apply Exists_fmap. eapply Exists_impl; [exact Hex|].
    intros r' Hr'. unfold compose. cbv beta in Hr' |- *.
    rewrite shape_of_flat. intros [= H]. by apply Hr'. }
  unfold normalise, np_array_float64. rewrite HA. by subst pairs.
Qed.

Lemma process_frames_ragged_witness :
  let st := deliver 0 (Wire <$> (flat_message <$> [([1; 2]%Z, 100%Z); ([3]%Z, 101%Z)]))
                    built_session in
  process_frames st = (Raise ValueError, with_inbox 0 (Some 49152%N) [] st).
Proof.
  intros st.
  apply (process_frames_ragged st 0 (Some 49152%N) ([1; 2]%Z, 100%Z) [([3]%Z, 101%Z)]).
  - apply Exists_cons_hd. simpl. lia.
  - split; reflexivity.
Defined.
